(** * alignmentPolish: the driver [main.py]

    A shallow embedding of [main.py] (the region orchestrator [View], the
    result object [AllCandidatesInRegion], the shard partitioner
    [do_parallel] and the command-line entry point) together with the
    properties of it that the specification states.

    The modules imported from [modules/] (BamHandler, FastaHandler,
    CandidateFinder, AlleleFinder) are not part of the file; they appear here
    as an interface ([Modules]) whose operations may return or raise. *)

From Stdlib Require Import ZArith Lia List String Ascii DecimalString Sorted.
From Stdlib Require DecimalPos DecimalZ.
From stdpp Require Import gmap strings list.

Set Warnings "-register-all".

Local Open Scope string_scope.
Local Open Scope list_scope.
Local Open Scope Z_scope.

(** ** Python values and exceptions *)

Inductive exn : Type :=
| ZeroDivisionError
| OverflowError
| IndexError
| TypeError
| FileExistsError
| FileNotFoundError
| IsADirectoryError
| NotADirectoryError
| AttributeError
| ModuleError (msg : string).

Inductive Result (A : Type) : Type :=
| Ok (a : A)
| Raise (e : exn).
Arguments Ok {A} a.
Arguments Raise {A} e.

(** ** Integer true division and [math.ceil]

    In Python 3, [a / b] on two ints is the IEEE binary64 number nearest to
    the exact quotient (ties to even); it raises ZeroDivisionError when
    [b] is zero and OverflowError when the rounded quotient does not fit.
    A finite binary64 is kept as [mant * 2 ^ expo]. *)

Record float : Type := Float { mant : Z; expo : Z }.

Definition mantissa_bits : Z := 53.
Definition min_exponent : Z := -1074.
Definition max_exponent : Z := 1024.

(** Nearest integer to [a / b] for [b > 0], ties to the even neighbour. *)
Definition round_half_even (a b : Z) : Z :=
  let q := a / b in
  let r := a mod b in
  match 2 * r ?= b with
  | Lt => q
  | Gt => q + 1
  | Eq => if Z.even q then q else q + 1
  end.

(** [b * 2 ^ d <= a], for an exponent [d] of either sign. *)
Definition scaled_le (b d a : Z) : bool :=
  if 0 <=? d then b * 2 ^ d <=? a else b <=? a * 2 ^ (- d).

(** The exponent of the quotient of two positive ints: the [e] with
    [2^52 <= a / (b * 2^e) < 2^53], not below the subnormal exponent. *)
Definition quotient_exponent (a b : Z) : Z :=
  let d := Z.log2 a - Z.log2 b in
  let e := if scaled_le b d a then d - (mantissa_bits - 1) else d - mantissa_bits in
  Z.max min_exponent e.

Definition py_truediv (a b : Z) : Result float :=
  if b =? 0 then Raise ZeroDivisionError
  else if a =? 0 then Ok (Float 0 0)
  else
    let e := quotient_exponent (Z.abs a) (Z.abs b) in
    let m := round_half_even (Z.abs a * 2 ^ Z.max 0 (- e)) (Z.abs b * 2 ^ Z.max 0 e) in
    if 0 <=? e then
      if 2 ^ max_exponent <=? m * 2 ^ e then Raise OverflowError
      else Ok (Float (Z.sgn a * Z.sgn b * m) e)
    else Ok (Float (Z.sgn a * Z.sgn b * m) e).

(** [int(math.ceil(x))] for a finite [x]. *)
Definition math_ceil (x : float) : Z :=
  if 0 <=? expo x then mant x * 2 ^ expo x
  else - ((- mant x) / 2 ^ (- expo x)).

(** The ceiling of the exact quotient, for comparison. *)
Definition ceil_div (a b : Z) : Z := - ((- a) / b).

(** [str(n)] for an int. *)
Definition str (n : Z) : string := NilZero.string_of_int (Z.to_int n).

(** ** JSON documents

    A document is kept as the value [json.dumps] is about to spell out.  The
    keys of an object are the keys of the Python dictionary it comes from: a
    str, an int, a bool, a finite float or None.  [json.dumps] puts the
    members in order by these keys and turns the keys into strings only
    afterwards. *)

Inductive key : Type :=
| KStr (s : string)
| KInt (n : Z)
| KBool (b : bool)
| KFloat (x : float)
| KNone.

Inductive json : Type :=
| JNull
| JBool (b : bool)
| JInt (n : Z)
| JFloat (literal : string)
| JStr (s : string)
| JList (items : list json)
| JDict (members : list (key * json)).

(** The value of a key that is a number; [True] and [False] are the ints 1
    and 0. *)
Definition key_number (k : key) : option float :=
  match k with
  | KInt n => Some (Float n 0)
  | KBool b => Some (Float (if b then 1 else 0) 0)
  | KFloat x => Some x
  | _ => None
  end.

(** [x <= y] on the exact values. *)
Definition float_leb (x y : float) : bool :=
  let e := Z.min (expo x) (expo y) in
  mant x * 2 ^ (expo x - e) <=? mant y * 2 ^ (expo y - e).

Definition key_rank (k : key) : Z :=
  match k with
  | KStr _ => 1
  | KNone => 2
  | _ => 0
  end.

(** The order the members are put in.  Strs are compared as strs and
    numbers by value, as Python compares them; a number, a str and None,
    which Python refuses to compare, come in this order. *)
Definition key_leb (a b : key) : bool :=
  match a, b with
  | KStr s, KStr t => String.leb s t
  | _, _ =>
      match key_number a, key_number b with
      | Some x, Some y => float_leb x y
      | _, _ => key_rank a <=? key_rank b
      end
  end.

Definition key_before (a b : key) : Prop := key_leb a b = true.

(** Insertion of a member by key into a list of members sorted by key. *)
Fixpoint insert_member (kv : key * json) (l : list (key * json))
  : list (key * json) :=
  match l with
  | [] => [kv]
  | kv' :: l' =>
      if key_leb (fst kv) (fst kv') then kv :: l
      else kv' :: insert_member kv l'
  end.

Definition sort_members (l : list (key * json)) : list (key * json) :=
  foldr insert_member [] l.

(** What [sort_keys=True] does to the emitted document: at every level the
    members of an object come out ordered by key.  (On a document with a
    dictionary whose keys Python cannot compare nothing is emitted: see
    [sortable] and [json_dumps].) *)
Fixpoint sort_keys (j : json) : json :=
  match j with
  | JList items => JList (List.map sort_keys items)
  | JDict members =>
      JDict (sort_members
               (List.map (fun kv => match kv with (k, v) => (k, sort_keys v) end) members))
  | _ => j
  end.

Definition keys (members : list (key * json)) : list key :=
  List.map fst members.

Definition is_str_key (k : key) : bool :=
  match k with KStr _ => true | _ => false end.

Definition is_number_key (k : key) : bool :=
  match key_number k with Some _ => true | None => false end.

(** The keys [sorted] can put in order: all of them strs, or all of them
    numbers, or no more than one key.  On any other dictionary the
    comparison of two keys raises TypeError. *)
Definition sortable_keys (l : list key) : bool :=
  forallb is_str_key l || forallb is_number_key l || (length l <=? 1)%nat.

Fixpoint sortable (j : json) : bool :=
  match j with
  | JList items => forallb sortable items
  | JDict members =>
      sortable_keys (List.map fst members)
      && forallb (fun kv => sortable (snd kv)) members
  | _ => true
  end.

(** Python's [a <= b] on two keys it can compare. *)
Definition key_le (a b : key) : Prop :=
  match a, b with
  | KStr s, KStr t => String.leb s t = true
  | _, _ =>
      match key_number a, key_number b with
      | Some x, Some y => float_leb x y = true
      | _, _ => False
      end
  end.

(** Every object of the document lists its keys in ascending order. *)
Fixpoint keys_sorted (j : json) : Prop :=
  match j with
  | JList items => fold_right (fun x acc => keys_sorted x /\ acc) True items
  | JDict members =>
      Sorted key_le (keys members) /\
      fold_right (fun kv acc => keys_sorted (snd kv) /\ acc) True members
  | _ => True
  end.

(** Two documents that say the same: they differ at most in the order in
    which their objects list their members. *)
Inductive same_content : json -> json -> Prop :=
| same_null : same_content JNull JNull
| same_bool b : same_content (JBool b) (JBool b)
| same_int n : same_content (JInt n) (JInt n)
| same_float s : same_content (JFloat s) (JFloat s)
| same_str s : same_content (JStr s) (JStr s)
| same_list items items' :
    Forall2 same_content items items' ->
    same_content (JList items) (JList items')
| same_dict members members' reordered :
    Forall2 (fun kv kv' => fst kv = fst kv' /\ same_content (snd kv) (snd kv'))
      members members' ->
    members' ≡ₚ reordered ->
    same_content (JDict members) (JDict reordered).

(** ** File-system paths

    The disk is a POSIX tree of directories and regular files, without
    symbolic links, permissions or limits on names and space.  A world records every
    directory under its path with a trailing slash and every regular file
    under its path without one; the paths are relative to the working
    directory, for which the empty path stands, or start at the root [/].
    The program's paths are looked up as the program spells them, so the
    model speaks of runs whose paths are spelled canonically
    ([canonical_dir]). *)

Definition is_slash (c : ascii) : bool := Ascii.eqb c "/"%char.

Fixpoint drop_while {A : Type} (p : A -> bool) (l : list A) : list A :=
  match l with
  | [] => []
  | x :: l' => if p x then drop_while p l' else l
  end.

(** The directory that holds the last component of a path. *)
Definition parent_dir (p : string) : string :=
  string_of_list_ascii
    (rev (drop_while (fun c => negb (is_slash c))
            (drop_while is_slash (rev (list_ascii_of_string p))))).

(** The path without the slashes at its end: the name under which a regular
    file would be recorded. *)
Definition strip_slashes (p : string) : string :=
  string_of_list_ascii (rev (drop_while is_slash (rev (list_ascii_of_string p)))).

(** The prefixes of a path that end in a slash: the directories the path
    leads through, the outermost first. *)
Fixpoint dir_prefixes (p : string) : list string :=
  match p with
  | EmptyString => []
  | String c p' =>
      (if is_slash c then [String c EmptyString] else [])
        ++ List.map (String c) (dir_prefixes p')
  end.

Fixpoint last_char (s : string) : option ascii :=
  match s with
  | EmptyString => None
  | String c EmptyString => Some c
  | String _ s' => last_char s'
  end.

Definition has_slash (s : string) : bool :=
  existsb is_slash (list_ascii_of_string s).

(** The components of a path, cut at the slashes. *)
Fixpoint split_slash (component : list ascii) (l : list ascii) : list string :=
  match l with
  | [] => [string_of_list_ascii (rev component)]
  | c :: l' =>
      if is_slash c then string_of_list_ascii (rev component) :: split_slash [] l'
      else split_slash (c :: component) l'
  end.

(** A component that names an entry of a directory. *)
Definition proper_name (n : string) : bool :=
  negb (String.eqb n "" || String.eqb n "." || String.eqb n "..").

(** A directory path spelled canonically: one or more proper names, each
    followed by one slash, from the working directory or from the root. *)
Definition canonical_dir (d : string) : bool :=
  match rev (split_slash [] (list_ascii_of_string d)) with
  | last :: body =>
      String.eqb last ""
      && match rev body with
         | [] => false
         | first :: others =>
             (String.eqb first "" || proper_name first) && forallb proper_name others
         end
  | [] => false
  end.

(** ** The objects of [main.py] *)

(** [AllCandidatesInRegion]: the per-region result, a list of candidate
    lists (one per window) with the region's coordinates. *)
Record AllCandidatesInRegion (Candidates : Type) : Type := {
  chromosome_name : string;
  start_position : Z;
  end_position : Z;
  all_candidates : list Candidates
}.
Arguments chromosome_name {Candidates} _.
Arguments start_position {Candidates} _.
Arguments end_position {Candidates} _.
Arguments all_candidates {Candidates} _.

(** [View]: the two handlers are identified by the file they were opened
    on. *)
Record View : Type := {
  bam_handler : string;
  fasta_handler : string;
  output_dir : string;
  view_chromosome_name : string
}.

(** The parsed command line ([FLAGS]). *)
Record Flags : Type := {
  FLAGS_ref : string;
  FLAGS_bam : string;
  FLAGS_chromosome_name : string;
  FLAGS_max_threads : Z;
  FLAGS_test : bool;
  FLAGS_json : bool;
  FLAGS_output_dir : string
}.

(** What a run does to its surroundings, in program order. *)
Inductive event : Type :=
| EvBamHandler (bam_file_path : string)
| EvFastaHandler (reference_file_path : string)
| EvGetChrSequenceLength (chr_name : string)
| EvGetReads (chr_name : string) (start stop : Z)
| EvCandidateFinder (chr_name : string) (region_start region_end : Z)
| EvGetSequence (chr_name : string) (start stop : Z)
| EvGetPileupColumns (chr_name : string) (start stop : Z)
| EvAlleleFinder (chr_name : string) (window_start window_end : Z)
| EvMkdir (path : string)
| EvOpenW (path : string)
| EvWrite (path : string)
| EvProcessStart (view : View) (start_position end_position : Z) (json_out : bool)
| EvProcessJoin (view : View) (start_position end_position : Z) (json_out : bool).

(** A worker process, by what it was started on. *)
Definition process : Type := View * Z * Z * bool.

#[global] Instance View_eq_dec : EqDecision View.
Proof. solve_decision. Defined.

Fixpoint remove_first (p : process) (l : list process) : list process :=
  match l with
  | [] => []
  | q :: l' => if decide (p = q) then l' else q :: remove_first p l'
  end.

(** The workers started and not joined, in the order of their start. *)
Definition active_children (t : list event) : list process :=
  fold_left (fun active ev =>
               match ev with
               | EvProcessStart v s e j => active ++ [(v, s, e, j)]
               | EvProcessJoin v s e j => remove_first (v, s, e, j) active
               | _ => active
               end) t [].

Definition join_event (p : process) : event :=
  match p with (v, s, e, j) => EvProcessJoin v s e j end.

(** The content of a file opened for writing: still empty, or a document. *)
Inductive content : Type :=
| Empty
| Doc (j : json).

Definition loc : Type := nat.

Section Driver.

Context {Reads Pileup Candidates : Type}.

(** The collaborators imported from [modules/].  A handler is named by the
    path it was opened on.  [candidate_windows] stands for constructing a
    CandidateFinder, [parse_reads], [merge_positions] and
    [get_candidate_windows]; [candidate_allele_list] for constructing an
    AlleleFinder, [generate_base_dictionaries] and
    [generate_candidate_allele_list]; [candidate_json] for what
    [ComplexEncoder.default] makes of a candidate list ([None] when the
    encoder rejects it). *)
Record Modules : Type := {
  BamHandler : string -> Result unit;
  FastaHandler : string -> Result unit;
  get_chr_sequence_length : string -> string -> Result Z;
  get_sequence : string -> string -> Z -> Z -> Result string;
  get_reads : string -> string -> Z -> Z -> Result Reads;
  get_pileupcolumns_aligned_to_a_region : string -> string -> Z -> Z -> Result Pileup;
  candidate_windows : Reads -> string -> string -> Z -> Z -> Result (list (string * Z * Z));
  candidate_allele_list : string -> Z -> Z -> Pileup -> string -> Result Candidates;
  candidate_json : Candidates -> option json
}.

(** The state a run works on: the objects it has allocated, the
    directories and files on disk, and the events so far. *)
Record World : Type := {
  heap : gmap loc (AllCandidatesInRegion Candidates);
  dirs : gset string;
  files : gmap string content;
  trace : list event
}.

Definition M (A : Type) : Type := World -> Result A * World.

Definition ret {A : Type} (a : A) : M A := fun w => (Ok a, w).

Definition raise {A : Type} (e : exn) : M A := fun w => (Raise e, w).

Definition bind {A B : Type} (m : M A) (k : A -> M B) : M B :=
  fun w =>
    match m w with
    | (Ok a, w') => k a w'
    | (Raise e, w') => (Raise e, w')
    end.

Definition lift {A : Type} (r : Result A) : M A := fun w => (r, w).

Definition add_events (w : World) (evs : list event) : World :=
  {| heap := heap w; dirs := dirs w; files := files w; trace := trace w ++ evs |}.

Definition emit (ev : event) : M unit := fun w => (Ok tt, add_events w [ev]).

(** A call into a collaborator: it is recorded, then returns or raises. *)
Definition call {A : Type} (ev : event) (r : Result A) : M A :=
  bind (emit ev) (fun _ => lift r).

End Driver.

Arguments Modules : clear implicits.
Arguments World : clear implicits.
Arguments M : clear implicits.

Declare Scope py_scope.
Delimit Scope py_scope with py.
Notation "x <- m ;; k" := (bind m (fun x => k))
  (at level 100, m at next level, right associativity) : py_scope.
Notation "m ;;; k" := (bind m (fun _ => k))
  (at level 100, right associativity) : py_scope.

Section Program.

Context {Reads Pileup Candidates : Type}.
Variable ext : Modules Reads Pileup Candidates.

Local Open Scope py_scope.

Local Abbreviation Region := (AllCandidatesInRegion Candidates).
Local Abbreviation W := (World Candidates).
Local Abbreviation Py := (M Candidates).

(** *** The [os] calls *)

(** A directory is there when it is on record, or is the working directory
    or the root. *)
Definition dir_present (w : W) (d : string) : bool :=
  bool_decide (d = "") || bool_decide (d = "/") || bool_decide (d ∈ dirs w).

Definition is_file (w : W) (p : string) : bool :=
  bool_decide (is_Some (files w !! p)).

(** On the way to [p] a regular file stands where a directory is needed. *)
Definition through_file (w : W) (p : string) : bool :=
  existsb (fun d => is_file w (strip_slashes d)) (dir_prefixes (strip_slashes p)).

(** [os.path.exists(p)], which [main.py] asks of paths that end in a slash
    only: a regular file of that name does not make it true. *)
Definition os_path_exists (p : string) : Py bool :=
  fun w => (Ok (bool_decide (p ∈ dirs w) || bool_decide (is_Some (files w !! p))), w).

(** [os.mkdir(p)], which [main.py] calls on paths that end in a slash.  A
    directory or a regular file of that name is in the way
    (FileExistsError); the parent must be there, and the call says whether
    the parent is missing (FileNotFoundError) or the way to it leads through
    a regular file (NotADirectoryError). *)
Definition os_mkdir (p : string) : Py unit :=
  fun w =>
    let w' := {| heap := heap w; dirs := dirs w; files := files w;
                 trace := trace w ++ [EvMkdir p] |} in
    if bool_decide (p ∈ dirs w) || bool_decide (is_Some (files w !! p))
       || is_file w (strip_slashes p)
    then (Raise FileExistsError, w')
    else if dir_present w (parent_dir p)
    then (Ok tt, {| heap := heap w; dirs := {[ p ]} ∪ dirs w; files := files w;
                    trace := trace w ++ [EvMkdir p] |})
    else if through_file w p then (Raise NotADirectoryError, w')
    else (Raise FileNotFoundError, w').

(** [open(p, 'w')]: the file is created, or emptied when it exists.  A
    directory of that name is in the way (IsADirectoryError), and the
    parent must be there, as for [os.mkdir]. *)
Definition open_w (p : string) : Py string :=
  fun w =>
    let w' := {| heap := heap w; dirs := dirs w; files := files w;
                 trace := trace w ++ [EvOpenW p] |} in
    if bool_decide (p ∈ dirs w) || bool_decide (p +:+ "/" ∈ dirs w)
    then (Raise IsADirectoryError, w')
    else if dir_present w (parent_dir p)
    then (Ok p, {| heap := heap w; dirs := dirs w; files := <[ p := Empty ]> (files w);
                   trace := trace w ++ [EvOpenW p] |})
    else if through_file w p then (Raise NotADirectoryError, w')
    else (Raise FileNotFoundError, w').

Definition file_write (p : string) (j : json) : Py unit :=
  fun w => (Ok tt, {| heap := heap w; dirs := dirs w; files := <[ p := Doc j ]> (files w);
                      trace := trace w ++ [EvWrite p] |}).

(** *** [AllCandidatesInRegion] *)

Definition AllCandidatesInRegion_init (chromosome_name : string)
    (start_position end_position : Z) : Py loc :=
  fun w =>
    let l := fresh (dom (heap w)) in
    (Ok l, {| heap := <[ l := {| chromosome_name := chromosome_name;
                                 start_position := start_position;
                                 end_position := end_position;
                                 all_candidates := [] |} ]> (heap w);
              dirs := dirs w; files := files w; trace := trace w |}).

Definition append_candidate (alignment_candidates_object : Candidates) (r : Region)
  : Region :=
  {| chromosome_name := chromosome_name r;
     start_position := start_position r;
     end_position := end_position r;
     all_candidates := all_candidates r ++ [alignment_candidates_object] |}.

Definition add_candidate_to_list (self : loc) (alignment_candidates_object : Candidates)
  : Py unit :=
  fun w =>
    match heap w !! self with
    | Some r =>
        (Ok tt, {| heap := <[ self := append_candidate alignment_candidates_object r ]> (heap w);
                   dirs := dirs w; files := files w; trace := trace w |})
    | None => (Raise AttributeError, w)
    end.

(** The dictionary of [reprJSON]: the object's four attributes, in the
    order the [dict(...)] call lists them. *)
Definition reprJSON (self : loc) : Py (list (key * json) * list Candidates) :=
  fun w =>
    match heap w !! self with
    | Some r =>
        (Ok ([(KStr "chromosome_name", JStr (chromosome_name r));
              (KStr "start_position", JInt (start_position r));
              (KStr "end_position", JInt (end_position r))],
             all_candidates r), w)
    | None => (Raise AttributeError, w)
    end.

(** *** [ComplexEncoder] and [json.dumps] *)

(** Encoding the candidate lists one after the other; the first one the
    encoder rejects raises TypeError. *)
Fixpoint encode_candidates (l : list Candidates) : Result (list json) :=
  match l with
  | [] => Ok []
  | c :: l' =>
      match candidate_json ext c with
      | None => Raise TypeError
      | Some j =>
          match encode_candidates l' with
          | Ok js => Ok (j :: js)
          | Raise e => Raise e
          end
      end
  end.

(** [json.dumps(d, cls=ComplexEncoder, indent=4, sort_keys=True)] on the
    dictionary of [reprJSON], as the document it denotes.  A candidate list
    the encoder rejects and a dictionary whose keys cannot be put in order
    both raise TypeError. *)
Definition json_dumps (d : list (key * json) * list Candidates) : Result json :=
  match encode_candidates (snd d) with
  | Ok js =>
      let document := JDict (fst d ++ [(KStr "all_candidates", JList js)]) in
      if sortable document then Ok (sort_keys document) else Raise TypeError
  | Raise e => Raise e
  end.

(** *** [View] *)

Definition View_init (chromosome_name bam_file_path reference_file_path
    output_file_path : string) : Py View :=
  call (EvBamHandler bam_file_path) (BamHandler ext bam_file_path) ;;;
  call (EvFastaHandler reference_file_path) (FastaHandler ext reference_file_path) ;;;
  ret {| bam_handler := bam_file_path;
         fasta_handler := reference_file_path;
         output_dir := output_file_path;
         view_chromosome_name := chromosome_name |}.

Definition json_file_name (chromosome_name : string) (start end_ : Z) : string :=
  "Candidates" +:+ "_" +:+ chromosome_name +:+ "_" +:+ str start +:+ "_" +:+ str end_
    +:+ ".json".

Definition write_json (self : View) (start end_ : Z) (all_candidate_lists : loc)
  : Py unit :=
  there <- os_path_exists (output_dir self +:+ "json_output/") ;;
  (if negb there then os_mkdir (output_dir self +:+ "json_output/") else ret tt) ;;;
  json_file <- open_w (output_dir self +:+ "json_output/"
                         +:+ json_file_name (view_chromosome_name self) start end_) ;;
  d <- reprJSON all_candidate_lists ;;
  text <- lift (json_dumps d) ;;
  file_write json_file text.

(** The body of the loop over the candidate windows. *)
Fixpoint for_each_window (self : View) (all_candidate_lists : loc)
    (candidate_windows : list (string * Z * Z)) : Py unit :=
  match candidate_windows with
  | [] => ret tt
  | (chr_name, window_start, window_end) :: rest =>
      reference_sequence <-
        call (EvGetSequence chr_name window_start (window_end + 1))
             (get_sequence ext (fasta_handler self) chr_name window_start (window_end + 1)) ;;
      pileup_columns <-
        call (EvGetPileupColumns chr_name window_start (window_end + 1))
             (get_pileupcolumns_aligned_to_a_region ext (bam_handler self) chr_name
                window_start (window_end + 1)) ;;
      candidate_list <-
        call (EvAlleleFinder chr_name window_start window_end)
             (candidate_allele_list ext chr_name window_start window_end
                pileup_columns reference_sequence) ;;
      add_candidate_to_list all_candidate_lists candidate_list ;;;
      for_each_window self all_candidate_lists rest
  end.

(** [parse_region] returns nothing in Python; here it hands back the
    object its local [all_candidate_lists] is bound to, so that the
    assembled result can be looked at.  The two debug switches are off. *)
Definition parse_region (self : View) (start_position end_position : Z)
    (json_out : bool) : Py loc :=
  reads <-
    call (EvGetReads (view_chromosome_name self) start_position end_position)
         (get_reads ext (bam_handler self) (view_chromosome_name self)
            start_position end_position) ;;
  candidate_windows <-
    call (EvCandidateFinder (view_chromosome_name self) start_position end_position)
         (candidate_windows ext reads (fasta_handler self) (view_chromosome_name self)
            start_position end_position) ;;
  all_candidate_lists <-
    AllCandidatesInRegion_init (view_chromosome_name self) start_position end_position ;;
  for_each_window self all_candidate_lists candidate_windows ;;;
  (if json_out then write_json self start_position end_position all_candidate_lists
   else ret tt) ;;;
  ret all_candidate_lists.

Definition test (self : View) (json_out : bool) : Py loc :=
  parse_region self 100000 200000 json_out.

(** *** [do_parallel] *)

(** [range(n)] *)
Definition range (n : Z) : list Z := List.map Z.of_nat (seq 0 (Z.to_nat n)).

(** [Process(target=view.parse_region, args=...)] followed by [p.start()]:
    the child is set going and the parent carries on.  The child is not
    daemonic: [Process] is given no [daemon] argument and the parent is not
    daemonic itself. *)
Definition Process_start (view : View) (start_position end_position : Z)
    (json_out : bool) : Py unit :=
  emit (EvProcessStart view start_position end_position json_out).

Fixpoint for_each_shard (chr_name bam_file ref_file : string) (json_out : bool)
    (output_dir : string) (each_segment_length : Z) (indices : list Z) : Py unit :=
  match indices with
  | [] => ret tt
  | i :: rest =>
      view <- View_init chr_name bam_file ref_file output_dir ;;
      let start_position := i * each_segment_length in
      let end_position := (i + 1) * each_segment_length + 1000 in
      Process_start view start_position end_position json_out ;;;
      for_each_shard chr_name bam_file ref_file json_out output_dir
        each_segment_length rest
  end.

Definition do_parallel (chr_name bam_file ref_file : string) (json_out : bool)
    (output_dir : string) (max_threads : Z) : Py unit :=
  call (EvFastaHandler ref_file) (FastaHandler ext ref_file) ;;;
  whole_length <-
    call (EvGetChrSequenceLength chr_name) (get_chr_sequence_length ext ref_file chr_name) ;;
  quotient <- lift (py_truediv whole_length max_threads) ;;
  let each_segment_length := math_ceil quotient in
  for_each_shard chr_name bam_file ref_file json_out output_dir each_segment_length
    (range max_threads).

(** *** The entry point, from the parsed flags on *)

Definition main (FLAGS : Flags) : Py unit :=
  output_dir <-
    match last_char (FLAGS_output_dir FLAGS) with
    | None => raise IndexError
    | Some c =>
        if is_slash c then ret (FLAGS_output_dir FLAGS)
        else ret (FLAGS_output_dir FLAGS +:+ "/")
    end ;;
  there <- os_path_exists output_dir ;;
  (if negb there then os_mkdir output_dir else ret tt) ;;;
  View_init (FLAGS_chromosome_name FLAGS) (FLAGS_bam FLAGS) (FLAGS_ref FLAGS) output_dir ;;;
  if FLAGS_test FLAGS then
    view <- View_init (FLAGS_chromosome_name FLAGS) (FLAGS_bam FLAGS) (FLAGS_ref FLAGS)
              output_dir ;;
    test view (FLAGS_json FLAGS) ;;;
    ret tt
  else
    do_parallel (FLAGS_chromosome_name FLAGS) (FLAGS_bam FLAGS) (FLAGS_ref FLAGS)
      (FLAGS_json FLAGS) output_dir (FLAGS_max_threads FLAGS).

(** Lines 244 to 247 on their own: the output directory as [main] goes on
    to use it, made when it is not there. *)
Definition prepare_output_dir (FLAGS : Flags) : Py string :=
  output_dir <-
    match last_char (FLAGS_output_dir FLAGS) with
    | None => raise IndexError
    | Some c =>
        if is_slash c then ret (FLAGS_output_dir FLAGS)
        else ret (FLAGS_output_dir FLAGS +:+ "/")
    end ;;
  there <- os_path_exists output_dir ;;
  (if negb there then os_mkdir output_dir else ret tt) ;;;
  ret output_dir.

(** *** The end of the script

    [main.py] joins no worker itself.  When the script has ended, whether
    it returned or raised, the exit handler that [multiprocessing] registers
    with [atexit] goes through the children of the process that were started
    and not joined and waits for each of them to end; only then does the
    process exit, with the outcome of the script.  [EvProcessJoin] marks the
    point at which the process is past the end of a worker.  The handler
    takes the children in no particular order; here they are taken in the
    order of their start. *)
Definition exit_function (script_events : list event) : Py unit :=
  fun w => (Ok tt, add_events w (List.map join_event (active_children script_events))).

Definition interpreter {A : Type} (script : Py A) : Py A :=
  fun w =>
    match script w with
    | (outcome, w') =>
        (outcome, snd (exit_function (drop (length (trace w)) (trace w')) w'))
    end.

End Program.

(** ** Reading a trace *)

(** The coordinate ranges of the workers set going, in order. *)
Definition started_ranges (t : list event) : list (Z * Z) :=
  flat_map (fun ev => match ev with
                      | EvProcessStart _ s e _ => [(s, e)]
                      | _ => []
                      end) t.

(** The workers set going, in order. *)
Definition started_processes (t : list event) : list process :=
  flat_map (fun ev => match ev with
                      | EvProcessStart v s e j => [(v, s, e, j)]
                      | _ => []
                      end) t.

(** The coordinate ranges of the workers waited for, in order. *)
Definition joined_ranges (t : list event) : list (Z * Z) :=
  flat_map (fun ev => match ev with
                      | EvProcessJoin _ s e _ => [(s, e)]
                      | _ => []
                      end) t.

Definition is_join (ev : event) : bool :=
  match ev with EvProcessJoin _ _ _ _ => true | _ => false end.

(** The events only [do_parallel] gives rise to. *)
Definition is_sharding (ev : event) : bool :=
  match ev with
  | EvGetChrSequenceLength _ | EvProcessStart _ _ _ _ => true
  | _ => false
  end.

(** The regions whose reads were asked for, in order. *)
Definition regions_read (t : list event) : list (string * Z * Z) :=
  flat_map (fun ev => match ev with
                      | EvGetReads c s e => [(c, s, e)]
                      | _ => []
                      end) t.

(** A computation that leaves the events so far alone and only adds events
    that satisfy [P], whether it returns or raises. *)
Definition appends {Candidates A : Type} (P : event -> Prop) (m : M Candidates A)
  : Prop :=
  forall w, exists evs, trace (snd (m w)) = trace w ++ evs /\ Forall P evs.

(** The spans asked of the reference and of the pileup, in order. *)
Definition sequence_fetches (t : list event) : list (string * Z * Z) :=
  flat_map (fun ev => match ev with
                      | EvGetSequence c s e => [(c, s, e)]
                      | _ => []
                      end) t.

Definition pileup_fetches (t : list event) : list (string * Z * Z) :=
  flat_map (fun ev => match ev with
                      | EvGetPileupColumns c s e => [(c, s, e)]
                      | _ => []
                      end) t.

(** The paths of the files written to, in order. *)
Definition written_files (t : list event) : list string :=
  flat_map (fun ev => match ev with EvWrite p => [p] | _ => [] end) t.

(** Nothing on disk lies beneath the directory [d]. *)
Definition fresh_dir {Candidates : Type} (w : World Candidates) (d : string) : Prop :=
  forall p rest, p ∈ dirs w \/ is_Some (files w !! p) -> p = d +:+ rest -> rest = "".

(** The dictionary of [reprJSON] with the candidate lists in their JSON
    form, as [json.dumps] has it before it puts the members in order. *)
Definition region_document {Candidates : Type} (r : AllCandidatesInRegion Candidates)
    (js : list json) : json :=
  JDict [(KStr "chromosome_name", JStr (chromosome_name r));
         (KStr "start_position", JInt (start_position r));
         (KStr "end_position", JInt (end_position r));
         (KStr "all_candidates", JList js)].

(** The candidate list the allele enumerator returns for a window, given
    the reference sequence and the pileup columns of the window's span. *)
Definition candidates_of_window {Reads Pileup Candidates : Type}
    (ext : Modules Reads Pileup Candidates) (self : View)
    (window : string * Z * Z) (candidate_list : Candidates) : Prop :=
  let '(chr_name, window_start, window_end) := window in
  exists reference_sequence pileup_columns,
    get_sequence ext (fasta_handler self) chr_name window_start (window_end + 1)
    = Ok reference_sequence /\
    get_pileupcolumns_aligned_to_a_region ext (bam_handler self) chr_name
      window_start (window_end + 1) = Ok pileup_columns /\
    candidate_allele_list ext chr_name window_start window_end
      pileup_columns reference_sequence = Ok candidate_list.

(** The half-open coordinate range [[start, end)]. *)
Definition in_range (r : Z * Z) (x : Z) : Prop := fst r <= x < snd r.

(** ** A small concrete setting

    One reference of a given length, one alignment file, and a window
    detector that reports a given list of windows; a candidate list is
    named by the window it was enumerated for, and its JSON form holds a
    dictionary keyed by positions. *)

Definition sample_candidate_json (c : string) : json :=
  JDict [(KStr "window", JStr c);
         (KStr "depth", JDict [(KInt 100, JInt 2); (KInt 9, JInt 7); (KInt 10, JInt 4)])].

Definition sample_modules (length : Z) (windows : list (string * Z * Z))
  : Modules unit unit string :=
  {| BamHandler := fun _ => Ok tt;
     FastaHandler := fun _ => Ok tt;
     get_chr_sequence_length := fun _ _ => Ok length;
     get_sequence := fun _ _ _ _ => Ok "ACGT";
     get_reads := fun _ _ _ _ => Ok tt;
     get_pileupcolumns_aligned_to_a_region := fun _ _ _ _ => Ok tt;
     candidate_windows := fun _ _ _ _ _ => Ok windows;
     candidate_allele_list := fun c s e _ _ => Ok (c +:+ ":" +:+ str s +:+ "-" +:+ str e);
     candidate_json := fun c => Some (sample_candidate_json c) |}.

(** Nothing allocated, nothing logged, and only the directory [out/] on
    disk. *)
Definition sample_world : World string :=
  {| heap := ∅; dirs := {[ "out/" ]}; files := ∅; trace := [] |}.

Definition sample_view : View :=
  {| bam_handler := "reads.bam"; fasta_handler := "ref.fa";
     output_dir := "out/"; view_chromosome_name := "3" |}.


Definition sample_windows : list (string * Z * Z) := [("3", 5, 9); ("3", 20, 20)].

Definition sample_region : AllCandidatesInRegion string :=
  {| chromosome_name := "3"; start_position := 0; end_position := 100;
     all_candidates := ["3:5-9"; "3:20-20"] |}.

(** The same disk, with one assembled region in memory. *)
Definition sample_world_with_region : World string :=
  {| heap := {[ 0%nat := sample_region ]}; dirs := {[ "out/" ]}; files := ∅;
     trace := [] |}.

(** A view on a chromosome whose name has a slash in it. *)
Definition slash_view : View :=
  {| bam_handler := "reads.bam"; fasta_handler := "ref.fa";
     output_dir := "out/"; view_chromosome_name := "a/b" |}.

(** A second view, writing elsewhere. *)
Definition other_view : View :=
  {| bam_handler := "other.bam"; fasta_handler := "ref.fa";
     output_dir := ""; view_chromosome_name := "3" |}.

Definition sample_flags (test : bool) : Flags :=
  {| FLAGS_ref := "ref.fa"; FLAGS_bam := "reads.bam"; FLAGS_chromosome_name := "3";
     FLAGS_max_threads := 5; FLAGS_test := test; FLAGS_json := false;
     FLAGS_output_dir := "out" |}.

(** ** Further readings of a run *)

(** The enumeration of a window raises [e]: at the reference fetch, at the
    pileup fetch, or in the allele enumerator. *)
Definition window_raises {Reads Pileup Candidates : Type}
    (ext : Modules Reads Pileup Candidates) (self : View)
    (window : string * Z * Z) (e : exn) : Prop :=
  let '(chr_name, window_start, window_end) := window in
  match get_sequence ext (fasta_handler self) chr_name window_start (window_end + 1) with
  | Raise e' => e' = e
  | Ok reference_sequence =>
      match get_pileupcolumns_aligned_to_a_region ext (bam_handler self) chr_name
              window_start (window_end + 1) with
      | Raise e' => e' = e
      | Ok pileup_columns =>
          candidate_allele_list ext chr_name window_start window_end
            pileup_columns reference_sequence = Raise e
      end
  end.

(** [p] is on disk, as a directory or as a file ([os.path.exists]). *)
Definition on_disk {Candidates : Type} (w : World Candidates) (p : string) : Prop :=
  p ∈ dirs w \/ is_Some (files w !! p).

(** A computation that leaves the directories and files as they are,
    whether it returns or raises. *)
Definition keeps_disk {Candidates A : Type} (m : M Candidates A) : Prop :=
  forall w, dirs (snd (m w)) = dirs w /\ files (snd (m w)) = files w.

(** The views of the workers set going, in order. *)
Definition started_views (t : list event) : list (View * bool) :=
  flat_map (fun ev => match ev with
                      | EvProcessStart v _ _ j => [(v, j)]
                      | _ => []
                      end) t.

(** The path of the artifact a worker on the range [r] writes. *)
Definition artifact_path (output_dir chromosome_name : string) (r : Z * Z) : string :=
  (output_dir +:+ "json_output/") +:+ json_file_name chromosome_name (fst r) (snd r).

(** A setting in which the alignment file does not open, the second window
    has no pileup, and the candidate lists cannot be encoded. *)
Definition failing_modules : Modules unit unit string :=
  {| BamHandler := fun _ => Raise (ModuleError "cannot open");
     FastaHandler := fun _ => Ok tt;
     get_chr_sequence_length := fun _ _ => Ok 1000;
     get_sequence := fun _ _ _ _ => Ok "ACGT";
     get_reads := fun _ _ _ _ => Ok tt;
     get_pileupcolumns_aligned_to_a_region :=
       fun _ _ s _ => if s =? 20 then Raise (ModuleError "no pileup") else Ok tt;
     candidate_windows := fun _ _ _ _ _ => Ok sample_windows;
     candidate_allele_list := fun c s e _ _ => Ok (c +:+ ":" +:+ str s +:+ "-" +:+ str e);
     candidate_json := fun _ => None |}.

(** A disk on which the output directory is not there. *)
Definition bare_world : World string :=
  {| heap := {[ 0%nat := sample_region ]}; dirs := ∅; files := ∅; trace := [] |}.

(** A disk on which regular files stand where the directories [out/] and
    [runs/] would be. *)
Definition blocked_world : World string :=
  {| heap := {[ 0%nat := sample_region ]}; dirs := ∅;
     files := {[ "out" := Empty; "runs" := Empty ]}; trace := [] |}.

Definition json_flags : Flags :=
  {| FLAGS_ref := "ref.fa"; FLAGS_bam := "reads.bam"; FLAGS_chromosome_name := "3";
     FLAGS_max_threads := 5; FLAGS_test := true; FLAGS_json := true;
     FLAGS_output_dir := "results" |}.

(** An output directory two levels down. *)
Definition nested_flags : Flags :=
  {| FLAGS_ref := "ref.fa"; FLAGS_bam := "reads.bam"; FLAGS_chromosome_name := "3";
     FLAGS_max_threads := 5; FLAGS_test := false; FLAGS_json := true;
     FLAGS_output_dir := "runs/today/" |}.
(** * Properties *)

(** ** True division followed by [math.ceil] *)

Local Open Scope Z_scope.

Lemma ceil_div_bounds (a b : Z) :
  0 < b -> (ceil_div a b - 1) * b < a <= ceil_div a b * b.
Proof.
  intros Hb. unfold ceil_div.
  pose proof (Z.div_mod (- a) b ltac:(lia)) as Hdm.
  pose proof (Z.mod_pos_bound (- a) b Hb) as Hr.
  nia.
Qed.

Lemma ceil_div_unique (a b c : Z) :
  0 < b -> (c - 1) * b < a <= c * b -> ceil_div a b = c.
Proof.
  intros Hb Hc. pose proof (ceil_div_bounds a b Hb) as H. nia.
Qed.

(** Rounding the scaled quotient stays within the same unit interval as the
    exact quotient, as soon as the scale exceeds half the divisor. *)
Lemma round_half_even_bounds (a b k : Z) :
  0 < b -> 0 <= k -> b < 2 ^ (k + 1) ->
  (ceil_div a b - 1) * 2 ^ k < round_half_even (a * 2 ^ k) b <= ceil_div a b * 2 ^ k.
Proof.
  intros Hb Hk Hlt.
  pose proof (ceil_div_bounds a b Hb) as Hc.
  set (c := ceil_div a b) in *.
  assert (HP : 0 < 2 ^ k) by (apply Z.pow_pos_nonneg; lia).
  rewrite Z.pow_add_r in Hlt by lia. change (2 ^ 1) with 2 in Hlt.
  set (P := 2 ^ k) in *.
  unfold round_half_even.
  pose proof (Z.div_mod (a * P) b ltac:(lia)) as Hdm.
  pose proof (Z.mod_pos_bound (a * P) b Hb) as Hr.
  set (q := a * P / b) in *. set (r := (a * P) mod b) in *.
  assert (Hq1 : (c - 1) * P <= q) by nia.
  assert (Hq2 : q <= c * P) by nia.
  destruct (Z.compare_spec (2 * r) b) as [He | Hl | Hg].
  - assert (q <> c * P) by nia.
    assert ((c - 1) * P < q) by nia.
    destruct (Z.even q); lia.
  - assert ((c - 1) * P < q) by nia. lia.
  - assert (q <> c * P) by nia. lia.
Qed.

Lemma quotient_exponent_bounds (a b : Z) :
  0 < a < 2 ^ 53 -> 0 < b < 2 ^ 1075 ->
  quotient_exponent a b <= 0 /\ b < 2 ^ (- quotient_exponent a b + 1).
Proof.
  intros Ha Hb. unfold quotient_exponent, mantissa_bits, min_exponent.
  pose proof (Z.log2_spec a ltac:(lia)) as Hla.
  pose proof (Z.log2_spec b ltac:(lia)) as Hlb.
  pose proof (Z.log2_nonneg a) as Hla0.
  pose proof (Z.log2_nonneg b) as Hlb0.
  assert (Hla53 : Z.log2 a < 53) by (apply Z.log2_lt_pow2; lia).
  set (la := Z.log2 a) in *. set (lb := Z.log2 b) in *.
  destruct (scaled_le b (la - lb) a) eqn:Hs.
  - unfold scaled_le in Hs.
    destruct (Z.max_spec (-1074) (la - lb - (53 - 1))) as [[Hlt ->] | [Hge ->]].
    + split; [lia |].
      replace (- (la - lb - (53 - 1)) + 1) with (53 - (la - lb)) by lia.
      destruct (0 <=? la - lb) eqn:Hd.
      * apply Z.leb_le in Hd, Hs.
        assert (H53 : 2 ^ 53 = 2 ^ (53 - (la - lb)) * 2 ^ (la - lb))
          by (rewrite <- Z.pow_add_r by lia; f_equal; lia).
        assert (0 < 2 ^ (la - lb)) by (apply Z.pow_pos_nonneg; lia).
        nia.
      * apply Z.leb_gt in Hd. apply Z.leb_le in Hs.
        assert (H53 : 2 ^ (53 - (la - lb)) = 2 ^ 53 * 2 ^ (- (la - lb)))
          by (rewrite <- Z.pow_add_r by lia; f_equal; lia).
        assert (0 < 2 ^ (- (la - lb))) by (apply Z.pow_pos_nonneg; lia).
        nia.
    + split; [lia |]. change (- -1074 + 1) with 1075. lia.
  - destruct (Z.max_spec (-1074) (la - lb - 53)) as [[Hlt ->] | [Hge ->]].
    + split; [lia |].
      assert (2 ^ (lb + 1) <= 2 ^ (- (la - lb - 53) + 1))
        by (apply Z.pow_le_mono_r; lia).
      replace (Z.succ lb) with (lb + 1) in Hlb by lia. lia.
    + split; [lia |]. change (- -1074 + 1) with 1075. lia.
Qed.

(** Below [2^53] the float detour is harmless: [int(math.ceil(a / b))] is
    the ceiling of the exact quotient. *)
Lemma truediv_ceil_exact (a b : Z) :
  0 <= a < 2 ^ 53 -> 0 < b < 2 ^ 1075 ->
  exists x, py_truediv a b = Ok x /\ math_ceil x = ceil_div a b.
Proof.
  intros Ha Hb. unfold py_truediv.
  destruct (b =? 0) eqn:Hb0; [apply Z.eqb_eq in Hb0; lia |].
  destruct (a =? 0) eqn:Ha0.
  - apply Z.eqb_eq in Ha0. subst a. eexists; split; [reflexivity |].
    unfold math_ceil, ceil_div. simpl. rewrite Z.div_0_l by lia. reflexivity.
  - apply Z.eqb_neq in Ha0.
    rewrite (Z.abs_eq a), (Z.abs_eq b) by lia.
    rewrite (Z.sgn_pos a), (Z.sgn_pos b) by lia.
    destruct (quotient_exponent_bounds a b ltac:(lia) Hb) as [He Hk].
    set (e := quotient_exponent a b) in *.
    rewrite (Z.max_l 0 e), (Z.max_r 0 (- e)) by lia.
    change (2 ^ 0) with 1. rewrite Z.mul_1_r.
    pose proof (round_half_even_bounds a b (- e) ltac:(lia) ltac:(lia) Hk) as Hm.
    set (m := round_half_even (a * 2 ^ (- e)) b) in *.
    pose proof (ceil_div_bounds a b ltac:(lia)) as Hc.
    destruct (0 <=? e) eqn:He0.
    + apply Z.leb_le in He0. assert (e = 0) as E0 by lia.
      rewrite E0 in *. change (2 ^ (- 0)) with 1 in Hm. change (2 ^ 0) with 1.
      assert (Hmc : m = ceil_div a b) by lia.
      assert (Hsmall : m < 2 ^ 1024).
      { assert (ceil_div a b <= a) by nia.
        assert (2 ^ 53 < 2 ^ 1024) by (apply Z.pow_lt_mono_r; lia). lia. }
      unfold max_exponent.
      destruct (2 ^ 1024 <=? m * 1) eqn:Hov; [apply Z.leb_le in Hov; lia |].
      eexists; split; [reflexivity |].
      cbv beta iota delta [math_ceil expo mant].
      change (0 <=? 0) with true. cbv iota. change (2 ^ 0) with 1. lia.
    + eexists; split; [reflexivity |].
      cbv beta iota delta [math_ceil expo mant]. rewrite He0.
      apply Z.leb_gt in He0.
      assert (HP : 0 < 2 ^ (- e)) by (apply Z.pow_pos_nonneg; lia).
      replace (1 * 1 * m) with m by lia.
      change (- (- m / 2 ^ (- e))) with (ceil_div m (2 ^ (- e))).
      apply ceil_div_unique; lia.
Qed.

(** ** Paths *)

Lemma list_ascii_of_string_app (a b : string) :
  list_ascii_of_string (a +:+ b) = list_ascii_of_string a ++ list_ascii_of_string b.
Proof. induction a as [| c a IH]; simpl; [done | by rewrite IH]. Qed.

Lemma has_slash_app (a b : string) :
  has_slash (a +:+ b) = has_slash a || has_slash b.
Proof. unfold has_slash. by rewrite list_ascii_of_string_app, existsb_app. Qed.

Lemma has_slash_uint (d : Decimal.uint) :
  has_slash (NilEmpty.string_of_uint d) = false.
Proof. induction d; simpl; [done | exact IHd ..]. Qed.

Lemma has_slash_nilzero_uint (d : Decimal.uint) :
  has_slash (NilZero.string_of_uint d) = false.
Proof.
  unfold NilZero.string_of_uint. destruct d; [reflexivity | apply has_slash_uint ..].
Qed.

(** The decimal form of an int has no slash in it. *)
Lemma has_slash_str (n : Z) : has_slash (str n) = false.
Proof.
  unfold str, NilZero.string_of_int.
  destruct (Z.to_int n) as [d | d]; [apply has_slash_nilzero_uint |].
  change (has_slash (String "-" (NilZero.string_of_uint d)))
    with (is_slash "-" || has_slash (NilZero.string_of_uint d)).
  by rewrite has_slash_nilzero_uint.
Qed.

Lemma has_slash_json_file_name (chr : string) (s e : Z) :
  has_slash chr = false -> has_slash (json_file_name chr s e) = false.
Proof.
  intros Hc. unfold json_file_name.
  rewrite !has_slash_app, Hc, !has_slash_str. reflexivity.
Qed.

Lemma drop_while_app_all {A : Type} (p : A -> bool) (l1 l2 : list A) :
  List.forallb p l1 = true -> drop_while p (l1 ++ l2) = drop_while p l2.
Proof.
  induction l1 as [| x l1 IH]; simpl; [done |].
  intros [Hx Hl]%andb_prop. rewrite Hx. by apply IH.
Qed.

Lemma last_char_snoc (d : string) (c : ascii) :
  last_char d = Some c ->
  exists l, list_ascii_of_string d = l ++ [c].
Proof.
  induction d as [| x d IH]; [done |].
  destruct d as [| y d'].
  - simpl. intros [= ->]. by exists [].
  - intros H. destruct (IH H) as [l Hl]. exists (x :: l).
    change (list_ascii_of_string (String x (String y d')))
      with (x :: list_ascii_of_string (String y d')).
    by rewrite Hl.
Qed.

Lemma no_slash_forallb (name : string) :
  has_slash name = false ->
  List.forallb (fun c => negb (is_slash c)) (rev (list_ascii_of_string name)) = true.
Proof.
  unfold has_slash. intros H. apply forallb_forall. intros c Hc.
  apply in_rev in Hc. destruct (is_slash c) eqn:E; [| done].
  assert (existsb is_slash (list_ascii_of_string name) = true); [| congruence].
  apply existsb_exists. eauto.
Qed.

(** Scanning back from the end of [d ++ name]: once the trailing slashes
    are gone, what remains up to the last slash is [d]. *)
Lemma parent_scan (d name : string) :
  last_char d = Some "/"%char -> has_slash name = false ->
  string_of_list_ascii
    (rev (drop_while (fun c => negb (is_slash c))
            (rev (list_ascii_of_string name) ++ rev (list_ascii_of_string d)))) = d.
Proof.
  intros Hd Hn. rewrite drop_while_app_all by by apply no_slash_forallb.
  destruct (last_char_snoc d _ Hd) as [l Hl].
  transitivity (string_of_list_ascii (list_ascii_of_string d));
    [| apply string_of_list_ascii_of_string].
  rewrite Hl, rev_app_distr. f_equal.
  cbn [rev app drop_while]. change (is_slash "/") with true. cbn [negb].
  cbn [rev]. by rewrite rev_involutive.
Qed.

Lemma drop_slashes_none (l r : list ascii) :
  l <> [] -> List.forallb (fun c => negb (is_slash c)) l = true ->
  drop_while is_slash (l ++ r) = l ++ r.
Proof.
  destruct l as [| c l]; [done |]. intros _ [Hc _]%andb_prop.
  apply negb_true_iff in Hc. simpl. by rewrite Hc.
Qed.

Lemma rev_name_nonempty (name : string) :
  name <> "" -> rev (list_ascii_of_string name) <> [].
Proof.
  intros Hne E. apply (f_equal (@rev ascii)) in E. rewrite rev_involutive in E.
  destruct name; [done | discriminate E].
Qed.

Lemma parent_dir_file (d name : string) :
  last_char d = Some "/"%char -> has_slash name = false -> name <> "" ->
  parent_dir (d +:+ name) = d.
Proof.
  intros Hd Hn Hne. unfold parent_dir.
  rewrite list_ascii_of_string_app, rev_app_distr.
  rewrite drop_slashes_none
    by (by apply rev_name_nonempty || by apply no_slash_forallb).
  by apply parent_scan.
Qed.

Lemma parent_dir_subdir (d name : string) :
  last_char d = Some "/"%char -> has_slash name = false -> name <> "" ->
  parent_dir (d +:+ name +:+ "/") = d.
Proof.
  intros Hd Hn Hne. unfold parent_dir.
  rewrite !list_ascii_of_string_app, !rev_app_distr.
  change (rev (list_ascii_of_string "/")) with ["/"%char].
  cbn [app drop_while]. change (is_slash "/") with true. cbv iota.
  rewrite drop_slashes_none
    by (by apply rev_name_nonempty || by apply no_slash_forallb).
  by apply parent_scan.
Qed.

Lemma strip_slashes_subdir (d name : string) :
  has_slash name = false -> name <> "" ->
  strip_slashes (d +:+ name +:+ "/") = d +:+ name.
Proof.
  intros Hn Hne. unfold strip_slashes.
  rewrite !list_ascii_of_string_app, !rev_app_distr.
  change (rev (list_ascii_of_string "/")) with ["/"%char].
  cbn [app drop_while]. change (is_slash "/") with true. cbv iota.
  rewrite drop_slashes_none
    by (by apply rev_name_nonempty || by apply no_slash_forallb).
  rewrite <- rev_app_distr, rev_involutive, <- list_ascii_of_string_app.
  apply string_of_list_ascii_of_string.
Qed.

Lemma append_cons (x : ascii) (a b : string) :
  String x a +:+ b = String x (a +:+ b).
Proof. reflexivity. Qed.

Lemma append_assoc (a b c : string) : (a +:+ b) +:+ c = a +:+ b +:+ c.
Proof.
  induction a as [| x a IH]; [done |]. rewrite !append_cons. by f_equal.
Qed.

Lemma append_inj_l (a b c : string) : a +:+ b = a +:+ c -> b = c.
Proof.
  induction a as [| x a IH]; [done |]. rewrite !append_cons.
  intros [= H]. by apply IH.
Qed.

Lemma append_empty_r (a : string) : a +:+ "" = a.
Proof. induction a as [| x a IH]; [done |]. rewrite append_cons. by f_equal. Qed.

(** Any quotient of a length below [2^53] by a non-zero count is a finite
    float: the division raises nothing. *)
Lemma py_truediv_total (a b : Z) :
  0 <= a < 2 ^ 53 -> b <> 0 -> exists x, py_truediv a b = Ok x.
Proof.
  intros Ha Hb. unfold py_truediv.
  destruct (b =? 0) eqn:Hb0; [apply Z.eqb_eq in Hb0; lia |].
  destruct (a =? 0) eqn:Ha0; [eexists; reflexivity |].
  apply Z.eqb_neq in Ha0.
  set (e := quotient_exponent (Z.abs a) (Z.abs b)).
  destruct (0 <=? e) eqn:He; [| eexists; reflexivity].
  apply Z.leb_le in He.
  assert (He0 : e <= 0).
  { unfold e, quotient_exponent, mantissa_bits, min_exponent.
    assert (Z.log2 (Z.abs a) < 53) by (apply Z.log2_lt_pow2; lia).
    pose proof (Z.log2_nonneg (Z.abs b)).
    destruct (scaled_le _ _ _); lia. }
  assert (E0 : e = 0) by lia. rewrite E0.
  change (Z.max 0 (- 0)) with 0. change (Z.max 0 0) with 0.
  change (2 ^ 0) with 1. rewrite !Z.mul_1_r.
  set (m := round_half_even (Z.abs a) (Z.abs b)).
  assert (Hm : m <= Z.abs a + 1).
  { unfold m, round_half_even.
    assert (Z.abs a / Z.abs b <= Z.abs a)
      by (apply Z.div_le_upper_bound; nia).
    destruct (_ ?= _); [destruct (Z.even _) |..]; lia. }
  assert (2 ^ 54 < 2 ^ max_exponent) by (apply Z.pow_lt_mono_r; unfold max_exponent; lia).
  destruct (2 ^ max_exponent <=? m) eqn:Hov; [apply Z.leb_le in Hov; lia |].
  eexists; reflexivity.
Qed.

(** ** Running the driver *)

Section Runs.

Context {Reads Pileup Candidates : Type}.
Variable ext : Modules Reads Pileup Candidates.

Local Abbreviation W := (World Candidates).

Lemma add_events_nil (w : W) : add_events w [] = w.
Proof. destruct w; unfold add_events; simpl. by rewrite app_nil_r. Qed.

Lemma add_events_app (w : W) (a b : list event) :
  add_events (add_events w a) b = add_events w (a ++ b).
Proof. unfold add_events; simpl. by rewrite app_assoc. Qed.

Lemma call_ok {A : Type} (ev : event) (r : Result A) (a : A) (w : W) :
  r = Ok a -> call ev r w = (Ok a, add_events w [ev]).
Proof. by intros ->. Qed.

Lemma call_raise {A : Type} (ev : event) (r : Result A) (e : exn) (w : W) :
  r = Raise e -> call ev r w = (Raise e, add_events w [ev]).
Proof. by intros ->. Qed.

Lemma bind_ok {A B : Type} (m : M Candidates A) (k : A -> M Candidates B)
    (a : A) (w w' : W) :
  m w = (Ok a, w') -> bind m k w = k a w'.
Proof. unfold bind. by intros ->. Qed.

Lemma bind_raise {A B : Type} (m : M Candidates A) (k : A -> M Candidates B)
    (e : exn) (w w' : W) :
  m w = (Raise e, w') -> bind m k w = (Raise e, w').
Proof. unfold bind. by intros ->. Qed.

Lemma View_init_ok (chr bam ref out : string) (w : W) :
  BamHandler ext bam = Ok tt -> FastaHandler ext ref = Ok tt ->
  View_init ext chr bam ref out w
  = (Ok {| bam_handler := bam; fasta_handler := ref; output_dir := out;
           view_chromosome_name := chr |},
     add_events w [EvBamHandler bam; EvFastaHandler ref]).
Proof.
  intros Hb Hf. unfold View_init.
  rewrite (bind_ok _ _ tt w (add_events w [EvBamHandler bam])) by by apply call_ok.
  rewrite (bind_ok _ _ tt _ (add_events w [EvBamHandler bam; EvFastaHandler ref])).
  - reflexivity.
  - rewrite (call_ok _ _ tt) by done. by rewrite add_events_app.
Qed.

(** The loop of [do_parallel]: every index opens its handlers and sets one
    worker going on its range; nothing else happens. *)
Lemma for_each_shard_run (chr bam ref : string) (json_out : bool) (out : string)
    (s : Z) (indices : list Z) (w : W) :
  BamHandler ext bam = Ok tt -> FastaHandler ext ref = Ok tt ->
  for_each_shard ext chr bam ref json_out out s indices w
  = (Ok tt,
     add_events w
       (flat_map (fun i =>
          [EvBamHandler bam; EvFastaHandler ref;
           EvProcessStart {| bam_handler := bam; fasta_handler := ref;
                             output_dir := out; view_chromosome_name := chr |}
             (i * s) ((i + 1) * s + 1000) json_out]) indices)).
Proof.
  intros Hb Hf. revert w.
  induction indices as [| i rest IH]; intros w.
  - simpl. by rewrite add_events_nil.
  - cbn [for_each_shard flat_map].
    erewrite bind_ok by (by apply View_init_ok).
    unfold Process_start.
    erewrite bind_ok by reflexivity.
    rewrite IH. by rewrite !add_events_app.
Qed.

Lemma do_parallel_run (chr bam ref : string) (json_out : bool) (out : string)
    (N L : Z) (q : float) (w : W) :
  BamHandler ext bam = Ok tt -> FastaHandler ext ref = Ok tt ->
  get_chr_sequence_length ext ref chr = Ok L ->
  py_truediv L N = Ok q ->
  do_parallel ext chr bam ref json_out out N w
  = (Ok tt,
     add_events w
       ([EvFastaHandler ref; EvGetChrSequenceLength chr] ++
        flat_map (fun i =>
          [EvBamHandler bam; EvFastaHandler ref;
           EvProcessStart {| bam_handler := bam; fasta_handler := ref;
                             output_dir := out; view_chromosome_name := chr |}
             (i * math_ceil q) ((i + 1) * math_ceil q + 1000) json_out]) (range N))).
Proof.
  intros Hb Hf HL Hq. unfold do_parallel.
  erewrite bind_ok by (by apply call_ok).
  erewrite bind_ok by (by apply call_ok).
  erewrite bind_ok by (unfold lift; by rewrite Hq).
  rewrite for_each_shard_run by done.
  by rewrite !add_events_app.
Qed.

Lemma started_ranges_app (t1 t2 : list event) :
  started_ranges (t1 ++ t2) = started_ranges t1 ++ started_ranges t2.
Proof. unfold started_ranges. apply flat_map_app. Qed.

Lemma started_ranges_shards (bam ref : string) (v : View) (json_out : bool) (s : Z)
    (indices : list Z) :
  started_ranges
    (flat_map (fun i => [EvBamHandler bam; EvFastaHandler ref;
                         EvProcessStart v (i * s) ((i + 1) * s + 1000) json_out])
       indices)
  = List.map (fun i => (i * s, (i + 1) * s + 1000)) indices.
Proof.
  induction indices as [| i rest IH]; [done |].
  cbn [flat_map List.map]. rewrite started_ranges_app, IH. reflexivity.
Qed.

Lemma range_length (n : Z) : 0 <= n -> Z.of_nat (length (range n)) = n.
Proof. intros Hn. unfold range. rewrite length_map, length_seq. lia. Qed.

Lemma range_lookup (n i : Z) : 0 <= i < n -> range n !! Z.to_nat i = Some i.
Proof.
  intros Hi. unfold range.
  rewrite list_lookup_fmap.
  rewrite lookup_seq_lt by lia. simpl. f_equal. lia.
Qed.

Lemma range_consecutive (n : Z) (i : nat) (a a' : Z) :
  range n !! i = Some a -> range n !! S i = Some a' -> 0 <= a /\ a' = a + 1.
Proof.
  unfold range. rewrite !list_lookup_fmap. intros Ha Ha'.
  destruct (seq 0 (Z.to_nat n) !! i) as [k |] eqn:Hk; [| done].
  destruct (seq 0 (Z.to_nat n) !! S i) as [k' |] eqn:Hk'; [| done].
  apply lookup_seq in Hk as [-> _]. apply lookup_seq in Hk' as [-> _].
  simpl in Ha, Ha'. injection Ha as <-. injection Ha' as <-. lia.
Qed.

End Runs.

(** ** The shard partitioner *)

Section Shards.

Context {Reads Pileup Candidates : Type}.
Variable ext : Modules Reads Pileup Candidates.

Local Abbreviation W := (World Candidates).

(** C1 (as amended).  For a chromosome length [0 <= L < 2^53] and a shard
    count [1 <= N < 2^1075], [do_parallel] sets exactly [N] workers going;
    worker [i] gets the range from [i * ceil(L/N)] to
    [(i+1) * ceil(L/N) + 1000]; every coordinate of [[0, L]] lies in one of
    the ranges; and two consecutive ranges share exactly the 1000
    coordinates that start at the second one's start. *)
Theorem do_parallel_shard_ranges (chr bam ref : string) (json_out : bool)
    (out : string) (N L : Z) (w : W) :
  BamHandler ext bam = Ok tt -> FastaHandler ext ref = Ok tt ->
  get_chr_sequence_length ext ref chr = Ok L ->
  0 <= L < 2 ^ 53 -> 1 <= N < 2 ^ 1075 ->
  let s := ceil_div L N in
  let shards := List.map (fun i => (i * s, (i + 1) * s + 1000)) (range N) in
  (exists w', do_parallel ext chr bam ref json_out out N w = (Ok tt, w') /\
              started_ranges (trace w') = started_ranges (trace w) ++ shards) /\
  Z.of_nat (length shards) = N /\
  (forall x, 0 <= x <= L -> exists r, r ∈ shards /\ in_range r x) /\
  (forall (i : nat) r r', shards !! i = Some r -> shards !! S i = Some r' ->
     snd r - fst r' = 1000 /\
     forall x, in_range r x /\ in_range r' x <-> fst r' <= x < fst r' + 1000).
Proof.
  intros Hb Hf HL HLb HN s shards.
  destruct (truediv_ceil_exact L N HLb ltac:(lia)) as (q & Hq & Hceil).
  pose proof (ceil_div_bounds L N ltac:(lia)) as Hs. fold s in Hs.
  assert (Hs0 : 0 <= s) by nia.
  split; [| split; [| split]].
  - eexists; split; [eapply do_parallel_run; eassumption |].
    cbn [trace add_events]. rewrite !started_ranges_app.
    rewrite started_ranges_shards, Hceil. reflexivity.
  - unfold shards. rewrite length_map. apply range_length. lia.
  - intros x Hx.
    assert (Hi : exists i, 0 <= i < N /\ i * s <= x < (i + 1) * s + 1000).
    { destruct (Z.eq_dec s 0) as [E | NE].
      - exists 0. nia.
      - pose proof (Z.div_mod x s NE) as Hdm.
        pose proof (Z.mod_pos_bound x s ltac:(lia)) as Hr.
        assert (0 <= x / s) by (apply Z.div_pos; lia).
        destruct (Z_lt_le_dec (x / s) N) as [Hlt | Hge].
        + exists (x / s). nia.
        + exists (N - 1). nia. }
    destruct Hi as (i & Hi & Hxi).
    exists (i * s, (i + 1) * s + 1000). split; [| exact Hxi].
    unfold shards. apply list_elem_of_fmap. exists i. split; [done |].
    apply list_elem_of_lookup. exists (Z.to_nat i). by apply range_lookup.
  - intros i r r' Hr Hr'. unfold shards in Hr, Hr'.
    rewrite list_lookup_fmap in Hr, Hr'.
    destruct (range N !! i) as [a |] eqn:Ha; [| done].
    destruct (range N !! S i) as [a' |] eqn:Ha'; [| done].
    destruct (range_consecutive N i a a' Ha Ha') as [Ha0 ->].
    simpl in Hr, Hr'. injection Hr as <-. injection Hr' as <-.
    unfold in_range. cbn [fst snd]. split; [lia |].
    intros x. nia.
Qed.

End Shards.

(** ** What a run may add to the trace *)

Section Appends.

Context {Reads Pileup Candidates : Type}.
Variable ext : Modules Reads Pileup Candidates.
Variable P : event -> Prop.

Local Abbreviation Py := (M Candidates).

Lemma appends_ret {A : Type} (a : A) : appends P (ret a : Py A).
Proof. intros w. exists []. simpl. by rewrite app_nil_r. Qed.

Lemma appends_raise {A : Type} (e : exn) : appends P (raise e : Py A).
Proof. intros w. exists []. simpl. by rewrite app_nil_r. Qed.

Lemma appends_lift {A : Type} (r : Result A) : appends P (lift r : Py A).
Proof. intros w. exists []. simpl. by rewrite app_nil_r. Qed.

Lemma appends_emit (ev : event) : P ev -> appends P (emit ev : Py unit).
Proof. intros Hev w. exists [ev]. simpl. split; [done | by constructor]. Qed.

Lemma appends_bind {A B : Type} (m : Py A) (k : A -> Py B) :
  appends P m -> (forall a, appends P (k a)) -> appends P (bind m k).
Proof.
  intros Hm Hk w. unfold bind.
  destruct (Hm w) as (evs & Ht & Hevs).
  destruct (m w) as [[a | e] w1]; simpl in Ht.
  - destruct (Hk a w1) as (evs' & Ht' & Hevs').
    exists (evs ++ evs'). rewrite Ht', Ht, app_assoc.
    split; [done | by apply Forall_app].
  - exists evs. by split.
Qed.

Lemma appends_call {A : Type} (ev : event) (r : Result A) :
  P ev -> appends P (call ev r : Py A).
Proof.
  intros Hev. unfold call. apply appends_bind; [by apply appends_emit |].
  intros _. apply appends_lift.
Qed.

Lemma appends_if {A : Type} (b : bool) (m1 m2 : Py A) :
  appends P m1 -> appends P m2 -> appends P (if b then m1 else m2).
Proof. by destruct b. Qed.

Lemma appends_os_path_exists (p : string) :
  appends P (os_path_exists p : Py bool).
Proof. intros w. exists []. simpl. by rewrite app_nil_r. Qed.

Lemma appends_AllCandidatesInRegion_init (chr : string) (s e : Z) :
  appends P (AllCandidatesInRegion_init chr s e : Py loc).
Proof. intros w. exists []. simpl. by rewrite app_nil_r. Qed.

Lemma appends_add_candidate_to_list (self : loc) (c : Candidates) :
  appends P (add_candidate_to_list self c).
Proof.
  intros w. exists []. unfold add_candidate_to_list.
  destruct (heap w !! self); simpl; by rewrite app_nil_r.
Qed.

Lemma appends_reprJSON (self : loc) :
  appends P (reprJSON self : Py (list (key * json) * list Candidates)).
Proof.
  intros w. exists []. unfold reprJSON.
  destruct (heap w !! self); simpl; by rewrite app_nil_r.
Qed.

Section Files.

Hypothesis P_mkdir : forall p, P (EvMkdir p).
Hypothesis P_open : forall p, P (EvOpenW p).
Hypothesis P_write : forall p, P (EvWrite p).

Lemma appends_os_mkdir (p : string) : appends P (os_mkdir p : Py unit).
Proof.
  intros w. exists [EvMkdir p]. unfold os_mkdir.
  split; [| by constructor].
  destruct (_ || _); [done |].
  destruct (dir_present _ _); [done |]. by destruct (through_file _ _).
Qed.

Lemma appends_open_w (p : string) : appends P (open_w p : Py string).
Proof.
  intros w. exists [EvOpenW p]. unfold open_w.
  split; [| by constructor].
  destruct (_ || _); [done |].
  destruct (dir_present _ _); [done |]. by destruct (through_file _ _).
Qed.

Lemma appends_file_write (p : string) (j : json) :
  appends P (file_write p j : Py unit).
Proof. intros w. exists [EvWrite p]. split; [done | by constructor]. Qed.

Lemma appends_write_json (self : View) (start end_ : Z) (obj : loc) :
  appends P (write_json ext self start end_ obj).
Proof.
  unfold write_json.
  apply appends_bind; [apply appends_os_path_exists | intros there].
  apply appends_bind;
    [apply appends_if; [apply appends_os_mkdir | apply appends_ret] | intros _].
  apply appends_bind; [apply appends_open_w | intros f].
  apply appends_bind; [apply appends_reprJSON | intros d].
  apply appends_bind; [apply appends_lift | intros text].
  apply appends_file_write.
Qed.

Hypothesis P_sequence : forall c a b, P (EvGetSequence c a b).
Hypothesis P_pileup : forall c a b, P (EvGetPileupColumns c a b).
Hypothesis P_allele : forall c a b, P (EvAlleleFinder c a b).

Lemma appends_for_each_window (self : View) (obj : loc) (ws : list (string * Z * Z)) :
  appends P (for_each_window ext self obj ws).
Proof.
  induction ws as [| [[c a] b] rest IH]; cbn [for_each_window].
  - apply appends_ret.
  - repeat first [exact IH | apply appends_add_candidate_to_list
                 | by apply appends_call
                 | apply appends_bind; [| intros ?]].
Qed.

Hypothesis P_finder : forall c a b, P (EvCandidateFinder c a b).

(** [parse_region] once the reads are in hand. *)
Lemma appends_parse_region_rest (self : View) (s e : Z) (json_out : bool)
    (reads : Reads) :
  appends P
    (bind (call (EvCandidateFinder (view_chromosome_name self) s e)
             (candidate_windows ext reads (fasta_handler self)
                (view_chromosome_name self) s e))
       (fun ws =>
          bind (AllCandidatesInRegion_init (view_chromosome_name self) s e)
            (fun obj =>
               bind (for_each_window ext self obj ws)
                 (fun _ =>
                    bind (if json_out then write_json ext self s e obj else ret tt)
                      (fun _ => ret obj))))).
Proof.
  apply appends_bind; [by apply appends_call | intros ws].
  apply appends_bind; [apply appends_AllCandidatesInRegion_init | intros obj].
  apply appends_bind; [apply appends_for_each_window | intros _].
  apply appends_bind; [| intros _; apply appends_ret].
  apply appends_if; [apply appends_write_json | apply appends_ret].
Qed.

Hypothesis P_reads : forall c a b, P (EvGetReads c a b).

Lemma appends_parse_region (self : View) (s e : Z) (json_out : bool) :
  appends P (parse_region ext self s e json_out).
Proof.
  unfold parse_region.
  apply appends_bind; [by apply appends_call | intros reads].
  apply appends_parse_region_rest.
Qed.

Hypothesis P_bam : forall p, P (EvBamHandler p).
Hypothesis P_fasta : forall p, P (EvFastaHandler p).

Lemma appends_View_init (chr bam ref out : string) :
  appends P (View_init ext chr bam ref out).
Proof.
  unfold View_init.
  repeat first [apply appends_ret | by apply appends_call
               | apply appends_bind; [| intros ?]].
Qed.

Lemma appends_main_test (FLAGS : Flags) :
  FLAGS_test FLAGS = true -> appends P (main ext FLAGS).
Proof.
  intros Ht. unfold main. rewrite Ht.
  apply appends_bind.
  { destruct (last_char _); [| apply appends_raise].
    apply appends_if; apply appends_ret. }
  intros out.
  apply appends_bind; [apply appends_os_path_exists | intros there].
  apply appends_bind;
    [apply appends_if; [apply appends_os_mkdir | apply appends_ret] | intros _].
  apply appends_bind; [apply appends_View_init | intros _].
  apply appends_bind; [apply appends_View_init | intros view].
  apply appends_bind; [apply appends_parse_region | intros _; apply appends_ret].
Qed.

Hypothesis P_length : forall c, P (EvGetChrSequenceLength c).
Hypothesis P_start : forall v s e j, P (EvProcessStart v s e j).

Lemma appends_for_each_shard (chr bam ref : string) (json_out : bool) (out : string)
    (s : Z) (indices : list Z) :
  appends P (for_each_shard ext chr bam ref json_out out s indices).
Proof.
  induction indices as [| i rest IH]; cbn [for_each_shard].
  - apply appends_ret.
  - apply appends_bind; [apply appends_View_init | intros view].
    apply appends_bind; [| intros _; exact IH].
    by apply appends_emit.
Qed.

Lemma appends_do_parallel (chr bam ref : string) (json_out : bool) (out : string)
    (N : Z) :
  appends P (do_parallel ext chr bam ref json_out out N).
Proof.
  unfold do_parallel.
  apply appends_bind; [by apply appends_call | intros _].
  apply appends_bind; [by apply appends_call | intros L].
  apply appends_bind; [apply appends_lift | intros q].
  apply appends_for_each_shard.
Qed.

Lemma appends_main (FLAGS : Flags) : appends P (main ext FLAGS).
Proof.
  destruct (FLAGS_test FLAGS) eqn:Ht; [by apply appends_main_test |].
  unfold main. rewrite Ht.
  apply appends_bind.
  { destruct (last_char _); [| apply appends_raise].
    apply appends_if; apply appends_ret. }
  intros out.
  apply appends_bind; [apply appends_os_path_exists | intros there].
  apply appends_bind;
    [apply appends_if; [apply appends_os_mkdir | apply appends_ret] | intros _].
  apply appends_bind; [apply appends_View_init | intros _].
  apply appends_do_parallel.
Qed.

End Files.

End Appends.

(** ** Sorted keys *)

Section JsonInduction.

Variable P : json -> Prop.
Hypothesis P_null : P JNull.
Hypothesis P_bool : forall b, P (JBool b).
Hypothesis P_int : forall n, P (JInt n).
Hypothesis P_float : forall s, P (JFloat s).
Hypothesis P_str : forall s, P (JStr s).
Hypothesis P_list : forall items, List.Forall P items -> P (JList items).
Hypothesis P_dict :
  forall members, List.Forall (fun kv => P (snd kv)) members -> P (JDict members).

(** Induction over a document, with the hypothesis available for every
    item of a list and every value of an object. *)
Lemma json_nested_ind (j : json) : P j.
Proof.
  revert j. fix IH 1. intros [| b | n | s | s | items | members].
  - exact P_null.
  - apply P_bool.
  - apply P_int.
  - apply P_float.
  - apply P_str.
  - apply P_list. induction items as [| x items IHitems]; constructor.
    + apply IH.
    + exact IHitems.
  - apply P_dict. induction members as [| [k v] members IHmembers]; constructor.
    + apply IH.
    + exact IHmembers.
Qed.

End JsonInduction.

Lemma keys_sorted_items (items : list json) :
  fold_right (fun x acc => keys_sorted x /\ acc) True items
  <-> List.Forall keys_sorted items.
Proof.
  induction items as [| x l IH]; simpl.
  - split; [constructor | done].
  - rewrite IH. split.
    + intros [? ?]. by constructor.
    + intros H. inversion H; by subst.
Qed.

Lemma keys_sorted_members (members : list (key * json)) :
  fold_right (fun kv acc => keys_sorted (snd kv) /\ acc) True members
  <-> List.Forall (fun kv => keys_sorted (snd kv)) members.
Proof.
  induction members as [| x l IH]; simpl.
  - split; [constructor | done].
  - rewrite IH. split.
    + intros [? ?]. by constructor.
    + intros H. inversion H; by subst.
Qed.

(** *** The order of the keys *)

Lemma float_leb_total (x y : float) : float_leb x y = false -> float_leb y x = true.
Proof.
  unfold float_leb. rewrite (Z.min_comm (expo y)).
  intros H%Z.leb_gt. apply Z.leb_le. lia.
Qed.

Lemma key_leb_total (a b : key) : key_leb a b = false -> key_leb b a = true.
Proof.
  destruct a as [s | n | c | x |], b as [t | m | d | y |]; cbn;
    try done; try apply float_leb_total.
  intros H. destruct (String.leb_total s t) as [E | E]; [congruence | exact E].
Qed.

(** Where Python can compare two keys, the order of the members is
    Python's. *)
Lemma key_leb_le (a b : key) :
  is_str_key a && is_str_key b || is_number_key a && is_number_key b = true ->
  key_leb a b = true -> key_le a b.
Proof. by destruct a as [s | n | c | x |], b as [t | m | d | y |]. Qed.

Lemma insert_member_head (kv : key * json) (l : list (key * json)) (k : key) :
  HdRel key_before k (keys l) -> key_before k (fst kv) ->
  HdRel key_before k (keys (insert_member kv l)).
Proof.
  intros Hl Hkv. destruct l as [| kv' l]; simpl.
  - by constructor.
  - destruct (key_leb (fst kv) (fst kv')); simpl.
    + by constructor.
    + inversion Hl; subst. by constructor.
Qed.

Lemma insert_member_sorted (kv : key * json) (l : list (key * json)) :
  Sorted key_before (keys l) -> Sorted key_before (keys (insert_member kv l)).
Proof.
  induction l as [| kv' l IH]; simpl; intros Hs.
  - repeat constructor.
  - destruct (key_leb (fst kv) (fst kv')) eqn:Hle; simpl.
    + constructor; [exact Hs | by constructor].
    + inversion Hs as [| ? ? Hs' Hhd]; subst.
      constructor; [by apply IH |].
      apply insert_member_head; [exact Hhd |]. by apply key_leb_total.
Qed.

Lemma sort_members_sorted (l : list (key * json)) :
  Sorted key_before (keys (sort_members l)).
Proof.
  induction l as [| kv l IH]; simpl; [constructor |].
  by apply insert_member_sorted.
Qed.

Lemma insert_member_Forall (Q : key * json -> Prop) (kv : key * json)
    (l : list (key * json)) :
  Q kv -> List.Forall Q l -> List.Forall Q (insert_member kv l).
Proof.
  intros Hkv. induction l as [| kv' l IH]; simpl; intros Hl.
  - by constructor.
  - destruct (key_leb (fst kv) (fst kv')).
    + by constructor.
    + inversion Hl; subst. constructor; [done | by apply IH].
Qed.

Lemma sort_members_Forall (Q : key * json -> Prop) (l : list (key * json)) :
  List.Forall Q l -> List.Forall Q (sort_members l).
Proof.
  induction 1 as [| kv l Hkv Hl IH]; simpl; [constructor |].
  by apply insert_member_Forall.
Qed.

Lemma insert_member_perm (kv : key * json) (l : list (key * json)) :
  insert_member kv l ≡ₚ kv :: l.
Proof.
  induction l as [| kv' l IH]; simpl; [done |].
  destruct (key_leb (fst kv) (fst kv')); [done |].
  rewrite IH. apply Permutation_swap.
Qed.

Lemma sort_members_perm (l : list (key * json)) : sort_members l ≡ₚ l.
Proof.
  induction l as [| kv l IH]; simpl; [done |].
  by rewrite insert_member_perm, IH.
Qed.

Lemma sort_members_keys (members : list (key * json)) :
  keys (sort_members
          (List.map (fun kv => match kv with (k, v) => (k, sort_keys v) end) members))
  ≡ₚ keys members.
Proof.
  unfold keys. rewrite sort_members_perm, List.map_map.
  by rewrite (List.map_ext _ fst) by (by intros [k v]).
Qed.

Lemma forallb_perm {A : Type} (f : A -> bool) (l l' : list A) :
  l ≡ₚ l' -> forallb f l = forallb f l'.
Proof.
  induction 1 as [| x l l' _ IH | x y l | l l' l'' _ IH1 _ IH2]; simpl.
  - done.
  - by rewrite IH.
  - by destruct (f x), (f y).
  - by rewrite IH1.
Qed.

Lemma sortable_keys_perm (l l' : list key) :
  l ≡ₚ l' -> sortable_keys l = sortable_keys l'.
Proof.
  intros H. unfold sortable_keys.
  by rewrite (forallb_perm _ _ _ H), (forallb_perm is_number_key _ _ H),
    (Permutation_length H).
Qed.

Lemma Sorted_impl_in {A : Type} (R R' : A -> A -> Prop) (l : list A) :
  (forall a b, a ∈ l -> b ∈ l -> R a b -> R' a b) -> Sorted R l -> Sorted R' l.
Proof.
  intros Himpl Hs. induction Hs as [| a l Hs IH Hhd]; [constructor |].
  constructor.
  - apply IH. intros x y Hx Hy. apply Himpl; by apply list_elem_of_further.
  - destruct Hhd as [| b l Hab]; constructor.
    apply Himpl; [apply list_elem_of_here | | exact Hab].
    apply list_elem_of_further, list_elem_of_here.
Qed.

(** Keys that can be put in order and are in the order of the members are
    in Python's ascending order. *)
Lemma sorted_sortable_keys (l : list key) :
  sortable_keys l = true -> Sorted key_before l -> Sorted key_le l.
Proof.
  unfold sortable_keys. intros H Hs.
  apply orb_true_iff in H as [H | H]; [apply orb_true_iff in H as [H | H] |].
  - apply (Sorted_impl_in key_before); [| exact Hs].
    intros a b Ha Hb. apply key_leb_le.
    rewrite forallb_forall in H.
    rewrite (H a), (H b); [done | |]; by apply list_elem_of_In.
  - apply (Sorted_impl_in key_before); [| exact Hs].
    intros a b Ha Hb. apply key_leb_le.
    rewrite forallb_forall in H.
    rewrite (H a), (H b); [apply orb_true_r | |]; by apply list_elem_of_In.
  - apply Nat.leb_le in H.
    destruct l as [| a [| b l]]; simpl in H; [| | lia]; repeat constructor.
Qed.

(** After [sort_keys] every object of a document whose dictionaries can be
    put in order has its keys in ascending order. *)
Lemma sort_keys_sorted (j : json) : sortable j = true -> keys_sorted (sort_keys j).
Proof.
  induction j as [| b | n | s | s | items IH | members IH] using json_nested_ind;
    try (intros _; exact I).
  - cbn [sort_keys keys_sorted sortable]. intros Hs. apply keys_sorted_items.
    induction IH as [| x l Hx Hl IHl]; simpl in *; [constructor |].
    apply andb_true_iff in Hs as [? ?]. constructor; [by apply Hx | by apply IHl].
  - cbn [sort_keys keys_sorted sortable]. intros [Hk Hv]%andb_true_iff. split.
    + apply sorted_sortable_keys; [| apply sort_members_sorted].
      by rewrite (sortable_keys_perm _ _ (sort_members_keys members)).
    + apply keys_sorted_members, sort_members_Forall.
      clear Hk. induction IH as [| [k v] l Hx Hl IHl]; simpl in *; [constructor |].
      apply andb_true_iff in Hv as [? ?]. constructor; [by apply Hx | by apply IHl].
Qed.

(** [sort_keys] changes the order of the members and nothing else. *)
Lemma sort_keys_same_content (j : json) : same_content j (sort_keys j).
Proof.
  induction j as [| b | n | s | s | items IH | members IH] using json_nested_ind;
    try by constructor.
  - cbn [sort_keys]. constructor.
    induction IH as [| x l Hx Hl IHl]; simpl; by constructor.
  - cbn [sort_keys]. eapply same_dict; [| symmetry; apply sort_members_perm].
    induction IH as [| [k v] l Hx Hl IHl]; simpl; by constructor.
Qed.

(** ** Serialization *)

Lemma last_char_app (a b : string) (c : ascii) :
  last_char (a +:+ String c b) = last_char (String c b).
Proof.
  induction a as [| x a IH]; [done |].
  rewrite append_cons. destruct a as [| y a']; [done |].
  rewrite append_cons in *. exact IH.
Qed.

Lemma json_file_name_nonempty (chr : string) (s e : Z) : json_file_name chr s e <> "".
Proof. discriminate. Qed.

(** The path as the source spells it. *)
Lemma json_path_spelled (out chr : string) (s e : Z) :
  out +:+ "json_output/" +:+ json_file_name chr s e
  = out +:+ "json_output/Candidates_" +:+ chr +:+ "_" +:+ str s +:+ "_" +:+ str e
      +:+ ".json".
Proof. reflexivity. Qed.

(** The document [json.dumps] makes of the dictionary of [reprJSON]: the
    four members in the order of their keys, the candidate lists sorted in
    turn. *)
Lemma sort_keys_region_document {Candidates : Type}
    (r : AllCandidatesInRegion Candidates) (js : list json) :
  sort_keys (region_document r js)
  = JDict [(KStr "all_candidates", JList (List.map sort_keys js));
           (KStr "chromosome_name", JStr (chromosome_name r));
           (KStr "end_position", JInt (end_position r));
           (KStr "start_position", JInt (start_position r))].
Proof. reflexivity. Qed.

Lemma sortable_region_document {Candidates : Type}
    (r : AllCandidatesInRegion Candidates) (js : list json) :
  sortable (region_document r js) = forallb sortable js.
Proof. cbn. by rewrite andb_true_r. Qed.

Section Serialization.

Context {Reads Pileup Candidates : Type}.
Variable ext : Modules Reads Pileup Candidates.

Local Abbreviation W := (World Candidates).

Lemma bind_inv_ok {A B : Type} (m : M Candidates A) (k : A -> M Candidates B)
    (w w' : W) (b : B) :
  bind m k w = (Ok b, w') -> exists a w1, m w = (Ok a, w1) /\ k a w1 = (Ok b, w').
Proof. unfold bind. destruct (m w) as [[a | e] w1]; [eauto | done]. Qed.

(** [json.dumps] goes through exactly when every candidate list has a JSON
    form in which every dictionary can be put in order. *)
Lemma json_dumps_region (r : AllCandidatesInRegion Candidates) :
  json_dumps ext ([(KStr "chromosome_name", JStr (chromosome_name r));
                   (KStr "start_position", JInt (start_position r));
                   (KStr "end_position", JInt (end_position r))],
                  all_candidates r)
  = match encode_candidates ext (all_candidates r) with
    | Ok js => if forallb sortable js then Ok (sort_keys (region_document r js))
               else Raise TypeError
    | Raise e => Raise e
    end.
Proof.
  unfold json_dumps. cbn [fst snd app].
  destruct (encode_candidates ext (all_candidates r)) as [js | e]; [| done].
  change (JDict _) with (region_document r js).
  by rewrite sortable_region_document.
Qed.

Lemma os_mkdir_inv (p : string) (w w1 : W) :
  os_mkdir p w = (Ok tt, w1) ->
  (p ∉ dirs w) /\ files w !! p = None /\ is_file w (strip_slashes p) = false /\
  dir_present w (parent_dir p) = true /\
  w1 = {| heap := heap w; dirs := {[ p ]} ∪ dirs w; files := files w;
          trace := trace w ++ [EvMkdir p] |}.
Proof.
  unfold os_mkdir. destruct (_ || _ || _) eqn:E; [done |].
  destruct (dir_present _ _) eqn:D; [| by destruct (through_file _ _)].
  intros [= <-]. apply orb_false_iff in E as [E E3]. apply orb_false_iff in E as [E1 E2].
  apply bool_decide_eq_false in E1, E2.
  split; [done |]. split; [by apply eq_None_not_Some |]. done.
Qed.

Lemma os_mkdir_ok (p : string) (w : W) :
  p ∉ dirs w -> files w !! p = None -> files w !! strip_slashes p = None ->
  dir_present w (parent_dir p) = true ->
  os_mkdir p w
  = (Ok tt, {| heap := heap w; dirs := {[ p ]} ∪ dirs w; files := files w;
               trace := trace w ++ [EvMkdir p] |}).
Proof.
  intros Hd Hf Hs Hp. unfold os_mkdir, is_file. rewrite Hf, Hs, Hp.
  rewrite (bool_decide_eq_false_2 _ Hd).
  by rewrite (bool_decide_eq_false_2 (is_Some None)) by (by intros [? ?]).
Qed.

Lemma open_w_inv (p f : string) (w w1 : W) :
  open_w p w = (Ok f, w1) ->
  f = p /\ (p ∉ dirs w) /\ (p +:+ "/" ∉ dirs w) /\
  dir_present w (parent_dir p) = true /\
  w1 = {| heap := heap w; dirs := dirs w; files := <[ p := Empty ]> (files w);
          trace := trace w ++ [EvOpenW p] |}.
Proof.
  unfold open_w. destruct (_ || _) eqn:E; [done |].
  destruct (dir_present _ _) eqn:D; [| by destruct (through_file _ _)].
  intros [= <- <-]. apply orb_false_iff in E as [E1 E2].
  by apply bool_decide_eq_false in E1, E2.
Qed.

Lemma open_w_ok (p : string) (w : W) :
  p ∉ dirs w -> p +:+ "/" ∉ dirs w -> dir_present w (parent_dir p) = true ->
  open_w p w
  = (Ok p, {| heap := heap w; dirs := dirs w; files := <[ p := Empty ]> (files w);
              trace := trace w ++ [EvOpenW p] |}).
Proof.
  intros Hd Hd' Hp. unfold open_w. rewrite Hp.
  by rewrite (bool_decide_eq_false_2 _ Hd), (bool_decide_eq_false_2 _ Hd').
Qed.

Lemma dir_present_in (w : W) (d : string) : d ∈ dirs w -> dir_present w d = true.
Proof.
  intros H. unfold dir_present. rewrite (bool_decide_eq_true_2 _ H). apply orb_true_r.
Qed.

(** Serialization never touches the objects in memory, whether it goes
    through or raises. *)
Lemma write_json_heap (self : View) (start end_ : Z) (obj : loc) (w : W) :
  heap (snd (write_json ext self start end_ obj w)) = heap w.
Proof.
  unfold write_json, bind, os_path_exists, os_mkdir, open_w, reprJSON, lift,
    file_write, ret.
  repeat (case_match; simplify_eq/=; try done).
Qed.

(** Whatever comes of it, a serialization makes no directory but
    [json_output/] and touches no file but its artifact. *)
Lemma write_json_effect (self : View) (start end_ : Z) (obj : loc) (w : W) :
  let sub := output_dir self +:+ "json_output/" in
  let path := sub +:+ json_file_name (view_chromosome_name self) start end_ in
  let w1 := snd (write_json ext self start end_ obj w) in
  (dirs w1 = dirs w \/ (~ on_disk w sub /\ dirs w1 = {[ sub ]} ∪ dirs w)) /\
  (forall p, p <> path -> files w1 !! p = files w !! p).
Proof.
  intros sub path w1. subst sub path w1. rewrite append_assoc.
  unfold write_json, bind, os_path_exists, os_mkdir, open_w, reprJSON, lift,
    file_write, ret.
  repeat (case_match; simplify_eq/=; try done).
  all: split;
    [ first [ by left
            | right; split; [| done];
              match goal with
              | H : negb (_ || _) = true |- _ =>
                  apply negb_true_iff, orb_false_iff in H as [H H'];
                  apply bool_decide_eq_false in H, H'; by intros [? | ?]
              end ]
    | intros p Hp; by rewrite ?lookup_insert_ne by done ].
Qed.

(** [write_json] up to the encoding, in an output directory that is there:
    the subdirectory is made when absent and the artifact is opened, and so
    emptied, before the document is computed. *)
Lemma write_json_opens (self : View) (start end_ : Z) (obj : loc) (w : W) :
  let sub := output_dir self +:+ "json_output/" in
  let path := sub +:+ json_file_name (view_chromosome_name self) start end_ in
  last_char (output_dir self) = Some "/"%char ->
  has_slash (view_chromosome_name self) = false ->
  dir_present w (output_dir self) = true ->
  files w !! sub = None ->
  files w !! (output_dir self +:+ "json_output") = None ->
  path ∉ dirs w ->
  path +:+ "/" ∉ dirs w ->
  write_json ext self start end_ obj w
  = bind (reprJSON obj)
      (fun d => bind (lift (json_dumps ext d)) (fun text => file_write path text))
      {| heap := heap w;
         dirs := if bool_decide (sub ∈ dirs w) then dirs w else {[ sub ]} ∪ dirs w;
         files := <[ path := Empty ]> (files w);
         trace := trace w ++ (if bool_decide (sub ∈ dirs w) then [] else [EvMkdir sub])
                    ++ [EvOpenW path] |}.
Proof.
  intros sub path Hd Hc Hout Hfile Hname Hpath Hpathd.
  assert (Hparent_sub : parent_dir sub = output_dir self).
  { unfold sub. change "json_output/" with ("json_output" +:+ "/").
    by apply parent_dir_subdir. }
  assert (Hstrip_sub : strip_slashes sub = output_dir self +:+ "json_output").
  { unfold sub. change "json_output/" with ("json_output" +:+ "/").
    by apply strip_slashes_subdir. }
  assert (Hsub : last_char sub = Some "/"%char).
  { unfold sub. change "json_output/" with ("json_output" +:+ "/").
    rewrite <- append_assoc. apply last_char_app. }
  assert (Hparent_path : parent_dir path = sub).
  { unfold path. apply parent_dir_file; [done | | apply json_file_name_nonempty].
    by apply has_slash_json_file_name. }
  assert (Hne : path <> sub).
  { unfold path. intros E.
    rewrite <- (append_empty_r sub) in E at 2.
    apply append_inj_l in E. by apply json_file_name_nonempty in E. }
  assert (Hned : path +:+ "/" <> sub).
  { unfold path. rewrite append_assoc. intros E.
    rewrite <- (append_empty_r sub) in E at 2.
    apply append_inj_l in E. discriminate E. }
  unfold write_json.
  replace (output_dir self +:+ "json_output/" +:+
           json_file_name (view_chromosome_name self) start end_)
    with path by (unfold path, sub; apply append_assoc).
  fold sub.
  assert (Hex1 : os_path_exists sub w = (Ok (bool_decide (sub ∈ dirs w)), w)).
  { unfold os_path_exists. rewrite Hfile.
    rewrite (bool_decide_eq_false_2 (is_Some None)) by (by intros [? ?]).
    by rewrite orb_false_r. }
  rewrite (bind_ok _ _ _ _ _ Hex1).
  destruct (bool_decide (sub ∈ dirs w)) eqn:Hex; cbn [negb].
  - apply bool_decide_eq_true in Hex.
    rewrite (bind_ok _ _ tt w w) by reflexivity.
    erewrite bind_ok.
    2:{ apply open_w_ok; [done | done |]. rewrite Hparent_path. by apply dir_present_in. }
    by rewrite app_nil_l.
  - apply bool_decide_eq_false in Hex.
    erewrite bind_ok.
    2:{ apply os_mkdir_ok; [done | done | by rewrite Hstrip_sub | by rewrite Hparent_sub]. }
    erewrite bind_ok.
    2:{ apply open_w_ok; cbn [dirs].
        - intros [E%elem_of_singleton | Hin]%elem_of_union; done.
        - intros [E%elem_of_singleton | Hin]%elem_of_union; done.
        - rewrite Hparent_path. apply dir_present_in. cbn [dirs].
          by apply elem_of_union_l, elem_of_singleton. }
    cbn [heap dirs files trace]. by rewrite <- !app_assoc.
Qed.

(** What a successful serialization found and did. *)
Lemma write_json_inv (self : View) (start end_ : Z) (obj : loc) (w w' : W) :
  write_json ext self start end_ obj w = (Ok tt, w') ->
  let sub := output_dir self +:+ "json_output/" in
  let path := sub +:+ json_file_name (view_chromosome_name self) start end_ in
  exists r js made,
    heap w !! obj = Some r /\
    encode_candidates ext (all_candidates r) = Ok js /\
    forallb sortable js = true /\
    made = negb (bool_decide (sub ∈ dirs w) || bool_decide (is_Some (files w !! sub))) /\
    (path ∉ dirs w') /\ (path +:+ "/" ∉ dirs w') /\
    dir_present w' (parent_dir path) = true /\
    w' = {| heap := heap w;
            dirs := if made then {[ sub ]} ∪ dirs w else dirs w;
            files := <[ path := Doc (sort_keys (region_document r js)) ]> (files w);
            trace := trace w ++ (if made then [EvMkdir sub] else [])
                       ++ [EvOpenW path; EvWrite path] |}.
Proof.
  intros Hrun sub path. revert Hrun. unfold write_json.
  replace (output_dir self +:+ "json_output/" +:+
           json_file_name (view_chromosome_name self) start end_)
    with path by (unfold path, sub; apply append_assoc).
  fold sub.
  intros (there & w0 & Hex & Hrun)%bind_inv_ok.
  unfold os_path_exists in Hex. injection Hex as <- <-.
  apply bind_inv_ok in Hrun as ([] & w1 & Hmk & Hrun).
  apply bind_inv_ok in Hrun as (f & w2 & Hopen & Hrun).
  apply open_w_inv in Hopen as (-> & Hp & Hpd & Hparent & ->).
  apply bind_inv_ok in Hrun as (d & w3 & Hrepr & Hrun).
  unfold reprJSON in Hrepr. cbn [heap] in Hrepr.
  destruct (heap w1 !! obj) as [r |] eqn:Hobj; [| done].
  injection Hrepr as <- <-.
  apply bind_inv_ok in Hrun as (text & w4 & Hdumps & Hrun).
  unfold lift in Hdumps. injection Hdumps as Hdumps <-.
  rewrite json_dumps_region in Hdumps.
  destruct (encode_candidates ext (all_candidates r)) as [js |] eqn:Henc; [| done].
  destruct (forallb sortable js) eqn:Hsort; [| done].
  injection Hdumps as <-.
  unfold file_write in Hrun. cbn [heap dirs files trace] in Hrun.
  injection Hrun as <-.
  exists r, js, (negb (bool_decide (sub ∈ dirs w) || bool_decide (is_Some (files w !! sub)))).
  destruct (bool_decide (sub ∈ dirs w) || bool_decide (is_Some (files w !! sub))) eqn:E;
    cbn [negb] in *.
  - injection Hmk as <-.
    split; [done |]. split; [done |]. split; [done |]. split; [done |].
    split; [done |]. split; [done |]. split; [done |].
    rewrite insert_insert_eq, app_nil_l, <- app_assoc. reflexivity.
  - apply os_mkdir_inv in Hmk as (_ & _ & _ & _ & ->). cbn [heap dirs files trace] in *.
    split; [done |]. split; [done |]. split; [done |]. split; [done |].
    split; [done |]. split; [done |]. split; [done |].
    rewrite insert_insert_eq, <- !app_assoc. reflexivity.
Qed.

(** When serialization goes through: the output directory is there, the
    chromosome name is a single path component, and every candidate list
    can be encoded. *)
Lemma write_json_run (self : View) (start end_ : Z) (obj : loc) (w : W)
    (r : AllCandidatesInRegion Candidates) (js : list json) :
  let sub := output_dir self +:+ "json_output/" in
  let path := sub +:+ json_file_name (view_chromosome_name self) start end_ in
  last_char (output_dir self) = Some "/"%char ->
  has_slash (view_chromosome_name self) = false ->
  dir_present w (output_dir self) = true ->
  files w !! sub = None ->
  files w !! (output_dir self +:+ "json_output") = None ->
  path ∉ dirs w ->
  path +:+ "/" ∉ dirs w ->
  heap w !! obj = Some r ->
  encode_candidates ext (all_candidates r) = Ok js ->
  forallb sortable js = true ->
  write_json ext self start end_ obj w
  = (Ok tt,
     {| heap := heap w;
        dirs := if bool_decide (sub ∈ dirs w) then dirs w else {[ sub ]} ∪ dirs w;
        files := <[ path := Doc (sort_keys (region_document r js)) ]> (files w);
        trace := trace w ++ (if bool_decide (sub ∈ dirs w) then [] else [EvMkdir sub])
                   ++ [EvOpenW path; EvWrite path] |}).
Proof.
  intros sub path Hd Hc Hout Hfile Hname Hpath Hpathd Hobj Henc Hsort.
  rewrite (write_json_opens self start end_ obj w) by done.
  fold sub. fold path.
  unfold bind, reprJSON, lift, file_write. cbn [heap dirs files trace].
  rewrite Hobj, json_dumps_region, Henc, Hsort.
  cbn [heap dirs files trace].
  rewrite insert_insert_eq. by rewrite <- !app_assoc.
Qed.

End Serialization.

(** ** The region orchestrator *)

Section Region.

Context {Reads Pileup Candidates : Type}.
Variable ext : Modules Reads Pileup Candidates.

Local Abbreviation W := (World Candidates).

(** The loop over the windows, when every enumeration goes through: the
    candidate lists are appended to the object in window order, and each
    window costs one reference fetch, one pileup fetch and one enumeration. *)
Lemma for_each_window_run (self : View) (obj : loc) (ws : list (string * Z * Z))
    (cands : list Candidates) :
  Forall2 (candidates_of_window ext self) ws cands ->
  forall (w : W) (r : AllCandidatesInRegion Candidates),
  heap w !! obj = Some r ->
  for_each_window ext self obj ws w
  = (Ok tt,
     {| heap := <[ obj := {| chromosome_name := chromosome_name r;
                             start_position := start_position r;
                             end_position := end_position r;
                             all_candidates := all_candidates r ++ cands |} ]> (heap w);
        dirs := dirs w;
        files := files w;
        trace := trace w ++
                 flat_map (fun '(c, a, b) =>
                             [EvGetSequence c a (b + 1); EvGetPileupColumns c a (b + 1);
                              EvAlleleFinder c a b]) ws |}).
Proof.
  induction 1 as [| [[c a] b] cand ws cands Hwin Hrest IH]; intros w r Hobj.
  - simpl. rewrite !app_nil_r. rewrite insert_id by (by destruct r).
    by destruct w.
  - destruct Hwin as (sq & pile & Hsq & Hpile & Hcand).
    cbn [for_each_window].
    erewrite bind_ok by (by apply call_ok).
    erewrite bind_ok by (by apply call_ok).
    erewrite bind_ok by (by apply call_ok).
    erewrite bind_ok.
    2:{ unfold add_candidate_to_list. cbn [heap add_events]. rewrite Hobj. reflexivity. }
    erewrite IH by (cbn [heap]; apply lookup_insert_eq).
    cbn [heap dirs files trace add_events append_candidate chromosome_name
           start_position end_position all_candidates flat_map].
    rewrite insert_insert_eq. f_equal. f_equal.
    + by rewrite <- app_assoc.
    + by rewrite <- !app_assoc.
Qed.

(** [parse_region] up to the serialization step, when the reads are
    obtained, the window detector returns [ws] and every window is
    enumerated. *)
Lemma parse_region_assembles (self : View) (s e : Z) (json_out : bool) (w : W)
    (reads : Reads) (ws : list (string * Z * Z)) (cands : list Candidates) :
  get_reads ext (bam_handler self) (view_chromosome_name self) s e = Ok reads ->
  candidate_windows ext reads (fasta_handler self) (view_chromosome_name self) s e
  = Ok ws ->
  Forall2 (candidates_of_window ext self) ws cands ->
  let obj := fresh (dom (heap w)) in
  let w1 :=
    {| heap := <[ obj := {| chromosome_name := view_chromosome_name self;
                            start_position := s;
                            end_position := e;
                            all_candidates := cands |} ]> (heap w);
       dirs := dirs w;
       files := files w;
       trace := trace w ++
                [EvGetReads (view_chromosome_name self) s e;
                 EvCandidateFinder (view_chromosome_name self) s e] ++
                flat_map (fun '(c, a, b) =>
                            [EvGetSequence c a (b + 1); EvGetPileupColumns c a (b + 1);
                             EvAlleleFinder c a b]) ws |} in
  parse_region ext self s e json_out w
  = bind (if json_out then write_json ext self s e obj else ret tt)
         (fun _ => ret obj) w1.
Proof.
  intros Hreads Hws Hcands obj w1. unfold parse_region.
  erewrite bind_ok by (by apply call_ok).
  erewrite bind_ok by (by apply call_ok).
  erewrite bind_ok by reflexivity.
  erewrite bind_ok.
  2:{ apply (for_each_window_run _ _ _ _ Hcands). cbn [heap add_events].
      apply lookup_insert_eq. }
  cbn [heap dirs files trace add_events chromosome_name start_position end_position
         all_candidates app].
  rewrite insert_insert_eq. fold obj.
  replace (((trace w ++ [EvGetReads (view_chromosome_name self) s e]) ++
            [EvCandidateFinder (view_chromosome_name self) s e]) ++
           flat_map (fun '(c, a, b) =>
                       [EvGetSequence c a (b + 1); EvGetPileupColumns c a (b + 1);
                        EvAlleleFinder c a b]) ws)
    with (trace w1) by (unfold w1; cbn [trace]; by rewrite <- !app_assoc).
  reflexivity.
Qed.

Lemma sequence_fetches_app (t1 t2 : list event) :
  sequence_fetches (t1 ++ t2) = sequence_fetches t1 ++ sequence_fetches t2.
Proof. apply flat_map_app. Qed.

Lemma pileup_fetches_app (t1 t2 : list event) :
  pileup_fetches (t1 ++ t2) = pileup_fetches t1 ++ pileup_fetches t2.
Proof. apply flat_map_app. Qed.

Lemma fetches_of_windows (ws : list (string * Z * Z)) :
  let evs := flat_map (fun '(c, a, b) =>
                         [EvGetSequence c a (b + 1); EvGetPileupColumns c a (b + 1);
                          EvAlleleFinder c a b]) ws in
  sequence_fetches evs = List.map (fun '(c, a, b) => (c, a, b + 1)) ws /\
  pileup_fetches evs = List.map (fun '(c, a, b) => (c, a, b + 1)) ws.
Proof.
  induction ws as [| [[c a] b] ws [IH1 IH2]]; [done |].
  cbn [flat_map List.map]. rewrite sequence_fetches_app, pileup_fetches_app.
  cbn zeta in IH1, IH2. rewrite IH1, IH2. done.
Qed.

Lemma fetches_of_others (evs : list event) :
  List.Forall (fun ev => sequence_fetches [ev] = [] /\ pileup_fetches [ev] = []) evs ->
  sequence_fetches evs = [] /\ pileup_fetches evs = [].
Proof.
  induction 1 as [| ev evs [Hs Hp] _ [IH1 IH2]]; [done |].
  change (ev :: evs) with ([ev] ++ evs).
  by rewrite sequence_fetches_app, pileup_fetches_app, IH1, IH2, Hs, Hp.
Qed.

(** Serialization fetches nothing from the reference or the alignment
    file. *)
Lemma write_json_no_fetch (self : View) (s e : Z) (obj : loc) (w : W) :
  sequence_fetches (trace (snd (write_json ext self s e obj w)))
  = sequence_fetches (trace w) /\
  pileup_fetches (trace (snd (write_json ext self s e obj w)))
  = pileup_fetches (trace w).
Proof.
  destruct (appends_write_json ext
              (fun ev => sequence_fetches [ev] = [] /\ pileup_fetches [ev] = [])
              ltac:(done) ltac:(done) ltac:(done) self s e obj w) as (evs & -> & Hevs).
  rewrite sequence_fetches_app, pileup_fetches_app.
  destruct (fetches_of_others evs Hevs) as [-> ->].
  by rewrite !app_nil_r.
Qed.

(** C2.  When the window detector returns the windows [ws] (and each of
    them is enumerated), [parse_region] asks the reference for exactly the
    spans [(window_start, window_end + 1)] of the windows, one per window
    and in window order, and asks the alignment file for the pileup
    columns of exactly the same spans. *)
Theorem parse_region_fetch_spans (self : View) (s e : Z) (json_out : bool) (w : W)
    (reads : Reads) (ws : list (string * Z * Z)) (cands : list Candidates) :
  get_reads ext (bam_handler self) (view_chromosome_name self) s e = Ok reads ->
  candidate_windows ext reads (fasta_handler self) (view_chromosome_name self) s e
  = Ok ws ->
  Forall2 (candidates_of_window ext self) ws cands ->
  let w' := snd (parse_region ext self s e json_out w) in
  let spans := List.map (fun '(chr_name, window_start, window_end) =>
                           (chr_name, window_start, window_end + 1)) ws in
  sequence_fetches (trace w') = sequence_fetches (trace w) ++ spans /\
  pileup_fetches (trace w') = pileup_fetches (trace w) ++ spans.
Proof.
  intros Hreads Hws Hcands w' spans. subst w'.
  rewrite (parse_region_assembles self s e json_out w reads ws cands) by done.
  set (w1 := {| heap := _; dirs := dirs w; files := files w; trace := _ |}).
  assert (H1 : sequence_fetches (trace w1) = sequence_fetches (trace w) ++ spans /\
               pileup_fetches (trace w1) = pileup_fetches (trace w) ++ spans).
  { unfold w1. cbn [trace].
    rewrite !sequence_fetches_app, !pileup_fetches_app.
    destruct (fetches_of_windows ws) as [-> ->]. by split. }
  destruct json_out; [| exact H1].
  destruct (appends_write_json ext
              (fun ev => sequence_fetches [ev] = [] /\ pileup_fetches [ev] = [])
              ltac:(done) ltac:(done) ltac:(done)
              self s e (fresh (dom (heap w))) w1) as (evs & Ht & Hevs).
  assert (Hsnd : trace (snd (bind (write_json ext self s e (fresh (dom (heap w))))
                               (fun _ => ret (fresh (dom (heap w)))) w1))
                 = trace w1 ++ evs).
  { unfold bind. by destruct (write_json _ _ _ _ _ _) as [[[] | ?] ?]. }
  rewrite Hsnd, sequence_fetches_app, pileup_fetches_app.
  destruct (fetches_of_others evs Hevs) as [-> ->].
  by rewrite !app_nil_r.
Qed.

(** C3.  When the window detector returns the windows [ws] (and each of
    them is enumerated), the object assembled by [parse_region] holds one
    candidate list per window, in the order of the windows: entry [i] is
    the candidate list enumerated for window [i].  The object is the one
    [parse_region] has at its return. *)
Theorem parse_region_window_order (self : View) (s e : Z) (json_out : bool) (w : W)
    (reads : Reads) (ws : list (string * Z * Z)) (cands : list Candidates) :
  get_reads ext (bam_handler self) (view_chromosome_name self) s e = Ok reads ->
  candidate_windows ext reads (fasta_handler self) (view_chromosome_name self) s e
  = Ok ws ->
  Forall2 (candidates_of_window ext self) ws cands ->
  let out := parse_region ext self s e json_out w in
  exists obj r,
    heap (snd out) !! obj = Some r /\
    (forall l, fst out = Ok l -> l = obj) /\
    (json_out = false -> fst out = Ok obj) /\
    length (all_candidates r) = length ws /\
    forall (i : nat) window,
      ws !! i = Some window ->
      exists candidate_list,
        all_candidates r !! i = Some candidate_list /\
        candidates_of_window ext self window candidate_list.
Proof.
  intros Hreads Hws Hcands out. subst out.
  rewrite (parse_region_assembles self s e json_out w reads ws cands) by done.
  set (obj := fresh (dom (heap w))).
  set (w1 := {| heap := _; dirs := dirs w; files := files w; trace := _ |}).
  exists obj, {| chromosome_name := view_chromosome_name self; start_position := s;
                 end_position := e; all_candidates := cands |}.
  assert (Hheap : heap (snd (bind (if json_out then write_json ext self s e obj else ret tt)
                               (fun _ => ret obj) w1)) = heap w1).
  { destruct json_out; [| done]. unfold bind.
    pose proof (write_json_heap ext self s e obj w1) as Hh.
    by destruct (write_json _ _ _ _ _ _) as [[[] | ?] ?]. }
  split; [rewrite Hheap; unfold w1; cbn [heap]; apply lookup_insert_eq |].
  split.
  { intros l. destruct json_out; [| by intros [= <-]]. unfold bind.
    destruct (write_json _ _ _ _ _ _) as [[[] | ?] ?]; [by intros [= <-] | done]. }
  split; [by intros -> |].
  cbn [all_candidates]. split; [symmetry; by eapply Forall2_length |].
  intros i window Hi. by eapply Forall2_lookup_l.
Qed.

(** C4.  When the window detector returns no window, no reference span
    and no pileup is fetched and no allele is enumerated, and nothing is
    raised for want of windows: the object [parse_region] assembles carries
    the view's chromosome name, the region's start and end, and an empty
    list, and [parse_region] returns normally, with that object.  With
    [json_out] set the object is serialized like any other, and
    [parse_region] returns when [write_json] returns. *)
Theorem parse_region_no_windows (self : View) (s e : Z) (json_out : bool) (w : W)
    (reads : Reads) :
  get_reads ext (bam_handler self) (view_chromosome_name self) s e = Ok reads ->
  candidate_windows ext reads (fasta_handler self) (view_chromosome_name self) s e
  = Ok [] ->
  let obj := fresh (dom (heap w)) in
  let empty := {| chromosome_name := view_chromosome_name self;
                  start_position := s;
                  end_position := e;
                  all_candidates := [] |} in
  let w1 := {| heap := <[ obj := empty ]> (heap w);
               dirs := dirs w;
               files := files w;
               trace := trace w ++ [EvGetReads (view_chromosome_name self) s e;
                                    EvCandidateFinder (view_chromosome_name self) s e] |} in
  (json_out = true -> fst (write_json ext self s e obj w1) = Ok tt) ->
  exists w',
    parse_region ext self s e json_out w = (Ok obj, w') /\
    heap w' !! obj = Some empty /\
    w' = (if json_out then snd (write_json ext self s e obj w1) else w1) /\
    sequence_fetches (trace w') = sequence_fetches (trace w) /\
    pileup_fetches (trace w') = pileup_fetches (trace w).
Proof.
  intros Hreads Hws obj empty w1 Hjson.
  rewrite (parse_region_assembles self s e json_out w reads [] []) by (done || constructor).
  cbn [flat_map]. rewrite app_nil_r. fold obj. fold empty. fold w1.
  assert (Hobj : heap w1 !! obj = Some empty)
    by (unfold w1; cbn [heap]; apply lookup_insert_eq).
  assert (Hfetch : sequence_fetches (trace w1) = sequence_fetches (trace w) /\
                   pileup_fetches (trace w1) = pileup_fetches (trace w)).
  { unfold w1. cbn [trace]. rewrite sequence_fetches_app, pileup_fetches_app.
    cbn. by rewrite !app_nil_r. }
  destruct json_out.
  - specialize (Hjson eq_refl).
    pose proof (write_json_heap ext self s e obj w1) as Hheap.
    pose proof (write_json_no_fetch self s e obj w1) as [Hs Hp].
    unfold bind.
    destruct (write_json ext self s e obj w1) as [[[] | err] w2]; [| done].
    cbn [fst snd] in *.
    exists w2. split; [reflexivity |]. split; [by rewrite Hheap |].
    split; [done |]. destruct Hfetch as [<- <-]. by split.
  - exists w1. split; [reflexivity |]. split; [exact Hobj |]. by split.
Qed.

(** C5.  [write_json] leaves every object in memory as it was, whether it
    goes through or raises; and a [parse_region] with [json_out] set ends
    with the same objects as one without. *)
Theorem write_json_leaves_result (self : View) (start end_ : Z) (obj : loc) (w : W) :
  (forall r, heap w !! obj = Some r ->
             heap (snd (write_json ext self start end_ obj w)) !! obj = Some r) /\
  heap (snd (write_json ext self start end_ obj w)) = heap w /\
  heap (snd (parse_region ext self start end_ true w))
  = heap (snd (parse_region ext self start end_ false w)).
Proof.
  split; [intros r Hr; by rewrite write_json_heap |].
  split; [apply write_json_heap |].
  unfold parse_region, bind.
  destruct (call _ _ w) as [[reads | ?] w1]; [| done].
  destruct (call _ _ w1) as [[ws | ?] w2]; [| done].
  destruct (AllCandidatesInRegion_init _ _ _ w2) as [[l | ?] w3]; [| done].
  destruct (for_each_window _ _ _ _ w3) as [[[] | ?] w4]; [| done].
  pose proof (write_json_heap ext self start end_ l w4) as Hh.
  by destruct (write_json _ _ _ _ _ _) as [[[] | ?] ?].
Qed.

End Region.

(** ** The artifact *)

Section Artifact.

Context {Reads Pileup Candidates : Type}.
Variable ext : Modules Reads Pileup Candidates.

Local Abbreviation W := (World Candidates).

(** C6.  Two serializations for the same chromosome name and the same
    bounds write files of one and the same name, each below its own
    output directory, whatever else differs between them (output
    directory, handlers, candidates, what is on disk).  The document
    written says what the dictionary of [reprJSON] says, with the candidate
    lists in their JSON form, and has the keys of every object in ascending
    order (strs as strs, numbers by value, as [json.dumps] compares the keys
    of a dictionary before it spells them out); at the top these are
    [all_candidates], [chromosome_name], [end_position], [start_position]. *)
Theorem write_json_artifact (self1 self2 : View) (start end_ : Z) (obj1 obj2 : loc)
    (w1 w1' w2 w2' : W) :
  view_chromosome_name self1 = view_chromosome_name self2 ->
  write_json ext self1 start end_ obj1 w1 = (Ok tt, w1') ->
  write_json ext self2 start end_ obj2 w2 = (Ok tt, w2') ->
  exists name d1 d2,
    name = json_file_name (view_chromosome_name self1) start end_ /\
    written_files (trace w1')
    = written_files (trace w1) ++ [(output_dir self1 +:+ "json_output/") +:+ name] /\
    written_files (trace w2')
    = written_files (trace w2) ++ [(output_dir self2 +:+ "json_output/") +:+ name] /\
    files w1' !! ((output_dir self1 +:+ "json_output/") +:+ name) = Some (Doc d1) /\
    files w2' !! ((output_dir self2 +:+ "json_output/") +:+ name) = Some (Doc d2) /\
    keys_sorted d1 /\ keys_sorted d2 /\
    (exists m1 m2,
       d1 = JDict m1 /\ d2 = JDict m2 /\
       keys m1 = [KStr "all_candidates"; KStr "chromosome_name"; KStr "end_position";
                  KStr "start_position"] /\
       keys m2 = keys m1) /\
    (exists r1 js1,
       heap w1 !! obj1 = Some r1 /\
       encode_candidates ext (all_candidates r1) = Ok js1 /\
       same_content (region_document r1 js1) d1) /\
    (exists r2 js2,
       heap w2 !! obj2 = Some r2 /\
       encode_candidates ext (all_candidates r2) = Ok js2 /\
       same_content (region_document r2 js2) d2).
Proof.
  intros Hchr H1 H2.
  apply write_json_inv in H1
    as (r1 & js1 & made1 & Hobj1 & Henc1 & Hsort1 & _ & _ & _ & _ & ->).
  apply write_json_inv in H2
    as (r2 & js2 & made2 & Hobj2 & Henc2 & Hsort2 & _ & _ & _ & _ & ->).
  rewrite <- Hchr.
  exists (json_file_name (view_chromosome_name self1) start end_),
    (sort_keys (region_document r1 js1)), (sort_keys (region_document r2 js2)).
  cbn [files trace]. unfold written_files. rewrite !flat_map_app.
  split; [reflexivity |].
  split; [destruct made1; cbn; by rewrite ?app_nil_r |].
  split; [destruct made2; cbn; by rewrite ?app_nil_r |].
  split; [apply lookup_insert_eq |].
  split; [apply lookup_insert_eq |].
  split; [apply sort_keys_sorted; by rewrite sortable_region_document |].
  split; [apply sort_keys_sorted; by rewrite sortable_region_document |].
  split; [eexists _, _; rewrite !sort_keys_region_document; by repeat split |].
  split; eexists _, _; (split; [eassumption |]); (split; [eassumption |]);
    apply sort_keys_same_content.
Qed.

(** C10 (as amended).  Whatever is on disk and whatever comes of it, a
    serialization makes no directory but [output_dir + "json_output/"], and
    that only when it is not there, and touches no file but the one at
    [output_dir + "json_output/Candidates_" + chromosome + "_" + start + "_" + end + ".json"];
    when it returns, the subdirectory is there and the document is in that
    file.  In an output directory that is there and has nothing beneath it
    (its path spelled canonically), a serialization for a chromosome name
    without a slash, of candidate lists that can be encoded, creates the
    subdirectory, writes the document and returns normally. *)
Theorem write_json_fresh_directory (self : View) (start end_ : Z) (obj : loc) :
  let sub := output_dir self +:+ "json_output/" in
  let path := output_dir self +:+ "json_output/Candidates_" +:+ view_chromosome_name self
                +:+ "_" +:+ str start +:+ "_" +:+ str end_ +:+ ".json" in
  (forall w : W,
     let w1 := snd (write_json ext self start end_ obj w) in
     (dirs w1 = dirs w \/ (~ on_disk w sub /\ dirs w1 = {[ sub ]} ∪ dirs w)) /\
     (forall p, p <> path -> files w1 !! p = files w !! p) /\
     (fst (write_json ext self start end_ obj w) = Ok tt ->
      on_disk w1 sub /\
      (exists d, files w1 !! path = Some (Doc d)) /\
      written_files (trace w1) = written_files (trace w) ++ [path])) /\
  (forall (w : W) (r : AllCandidatesInRegion Candidates) (js : list json),
     canonical_dir (output_dir self) = true ->
     last_char (output_dir self) = Some "/"%char ->
     has_slash (view_chromosome_name self) = false ->
     output_dir self ∈ dirs w ->
     fresh_dir w (output_dir self) ->
     heap w !! obj = Some r ->
     encode_candidates ext (all_candidates r) = Ok js ->
     forallb sortable js = true ->
     write_json ext self start end_ obj w
     = (Ok tt,
        {| heap := heap w;
           dirs := {[ sub ]} ∪ dirs w;
           files := <[ path := Doc (sort_keys (region_document r js)) ]> (files w);
           trace := trace w ++ [EvMkdir sub; EvOpenW path; EvWrite path] |}) /\
     (sub ∉ dirs w)).
Proof.
  intros sub path.
  assert (Hpath : path = sub +:+ json_file_name (view_chromosome_name self) start end_).
  { unfold path, sub. rewrite append_assoc. reflexivity. }
  split.
  - intros w w1. subst w1. split; [| split].
    + apply (write_json_effect ext self start end_ obj w).
    + rewrite Hpath. apply (write_json_effect ext self start end_ obj w).
    + intros Hok.
      destruct (write_json ext self start end_ obj w) as [[[] | err] w1] eqn:Hrun;
        [| done].
      apply write_json_inv in Hrun
        as (r & js & made & _ & _ & _ & Hmade & _ & _ & _ & ->).
      fold sub in Hmade |- *. rewrite <- Hpath. cbn [snd dirs files trace].
      split; [| split].
      * destruct made.
        -- left. cbn [dirs]. by apply elem_of_union_l, elem_of_singleton.
        -- symmetry in Hmade. apply negb_false_iff, orb_true_iff in Hmade as [E | E];
             apply bool_decide_eq_true in E; [by left | right].
           cbn [files]. destruct (decide (sub = path)) as [<- | Hne].
           ++ rewrite lookup_insert_eq. by eexists.
           ++ by rewrite lookup_insert_ne.
      * eexists. apply lookup_insert_eq.
      * unfold written_files. rewrite !flat_map_app.
        destruct made; cbn; by rewrite ?app_nil_r.
  - intros w r js _ Hd Hc Hout Hfresh Hobj Henc Hsort.
    assert (Hsub : sub ∉ dirs w).
    { intros Hin. by pose proof (Hfresh sub "json_output/" (or_introl Hin) eq_refl). }
    assert (Hfile : files w !! sub = None).
    { destruct (files w !! sub) eqn:E; [| done].
      by pose proof (Hfresh sub "json_output/" (or_intror (ex_intro _ _ E)) eq_refl). }
    assert (Hname : files w !! (output_dir self +:+ "json_output") = None).
    { destruct (files w !! (output_dir self +:+ "json_output")) eqn:E; [| done].
      by pose proof (Hfresh _ "json_output" (or_intror (ex_intro _ _ E)) eq_refl). }
    assert (Hp : (sub +:+ json_file_name (view_chromosome_name self) start end_) ∉ dirs w).
    { intros Hin.
      pose proof (Hfresh _ ("json_output/" +:+
                            json_file_name (view_chromosome_name self) start end_)
                    (or_introl Hin) (append_assoc _ _ _)) as E.
      discriminate E. }
    assert (Hpd : (sub +:+ json_file_name (view_chromosome_name self) start end_) +:+ "/"
                  ∉ dirs w).
    { intros Hin.
      pose proof (Hfresh _ ("json_output/" +:+
                            json_file_name (view_chromosome_name self) start end_ +:+ "/")
                    (or_introl Hin)) as E.
      unfold sub in E. rewrite !append_assoc in E. specialize (E eq_refl).
      discriminate E. }
    pose proof (write_json_run ext self start end_ obj w r js Hd Hc
                  (dir_present_in w _ Hout) Hfile Hname Hp Hpd Hobj Henc Hsort) as Hrun.
    rewrite (bool_decide_eq_false_2 _ Hsub) in Hrun.
    split; [| exact Hsub]. rewrite Hrun, Hpath. reflexivity.
Qed.

End Artifact.

(** ** The two modes of [main] *)

Section Modes.

Context {Reads Pileup Candidates : Type}.
Variable ext : Modules Reads Pileup Candidates.

Local Abbreviation W := (World Candidates).

Lemma regions_read_app (t1 t2 : list event) :
  regions_read (t1 ++ t2) = regions_read t1 ++ regions_read t2.
Proof. apply flat_map_app. Qed.

Lemma regions_read_others (evs : list event) :
  List.Forall (fun ev => regions_read [ev] = []) evs -> regions_read evs = [].
Proof.
  induction 1 as [| ev evs Hev _ IH]; [done |].
  change (ev :: evs) with ([ev] ++ evs). by rewrite regions_read_app, Hev, IH.
Qed.

(** Whatever becomes of it, a [parse_region] asks for the reads of its own
    region once, and of no other. *)
Lemma parse_region_reads_once (self : View) (s e : Z) (json_out : bool) (w : W) :
  regions_read (trace (snd (parse_region ext self s e json_out w)))
  = regions_read (trace w) ++ [(view_chromosome_name self, s, e)].
Proof.
  unfold parse_region. unfold bind at 1.
  destruct (get_reads ext (bam_handler self) (view_chromosome_name self) s e)
    as [reads | err] eqn:Hreads.
  - rewrite (call_ok _ _ reads) by done.
    destruct (appends_parse_region_rest ext (fun ev => regions_read [ev] = [])
                ltac:(done) ltac:(done) ltac:(done) ltac:(done) ltac:(done)
                ltac:(done) ltac:(done) self s e json_out reads
                (add_events w [EvGetReads (view_chromosome_name self) s e]))
      as (evs & -> & Hevs).
    cbn [trace add_events]. rewrite !regions_read_app.
    rewrite (regions_read_others evs Hevs). by rewrite app_nil_r.
  - rewrite (call_raise _ _ err) by done.
    cbn [snd trace add_events]. by rewrite regions_read_app.
Qed.

(** [main] up to the choice of mode, when the output directory is already
    there and the two files open. *)
Lemma main_setup (FLAGS : Flags) (c : ascii) (w : W) :
  last_char (FLAGS_output_dir FLAGS) = Some c ->
  let out := if is_slash c then FLAGS_output_dir FLAGS
             else FLAGS_output_dir FLAGS +:+ "/" in
  out ∈ dirs w ->
  BamHandler ext (FLAGS_bam FLAGS) = Ok tt ->
  FastaHandler ext (FLAGS_ref FLAGS) = Ok tt ->
  main ext FLAGS w
  = (if FLAGS_test FLAGS then
       bind (View_init ext (FLAGS_chromosome_name FLAGS) (FLAGS_bam FLAGS)
               (FLAGS_ref FLAGS) out)
         (fun view => bind (test ext view (FLAGS_json FLAGS)) (fun _ => ret tt))
     else
       do_parallel ext (FLAGS_chromosome_name FLAGS) (FLAGS_bam FLAGS) (FLAGS_ref FLAGS)
         (FLAGS_json FLAGS) out (FLAGS_max_threads FLAGS))
      (add_events w [EvBamHandler (FLAGS_bam FLAGS); EvFastaHandler (FLAGS_ref FLAGS)]).
Proof.
  intros Hc out Hout Hb Hf. unfold main. rewrite Hc.
  rewrite (bind_ok _ _ out w w) by (unfold out; by destruct (is_slash c)).
  rewrite (bind_ok _ _ true w w).
  2:{ unfold os_path_exists. by rewrite (bool_decide_eq_true_2 _ Hout). }
  cbn [negb]. rewrite (bind_ok _ _ tt w w) by reflexivity.
  erewrite bind_ok by (by apply View_init_ok).
  reflexivity.
Qed.

(** C7 (as amended).  For a shard count of zero, [do_parallel] raises
    ZeroDivisionError out of the segment-length division, before any range
    is computed or worker set going, whatever the chromosome length.  For a
    negative shard count (and a chromosome length [0 <= L < 2^53]) nothing is
    raised: [do_parallel] returns normally, having computed no range and set
    no worker going.  With any shard count that is not positive all it did
    was open the reference and look up the chromosome length. *)
Theorem do_parallel_no_shards (chr bam ref : string) (json_out : bool) (out : string)
    (N L : Z) (w : W) :
  FastaHandler ext ref = Ok tt ->
  get_chr_sequence_length ext ref chr = Ok L ->
  N <= 0 ->
  let run := do_parallel ext chr bam ref json_out out N w in
  snd run = add_events w [EvFastaHandler ref; EvGetChrSequenceLength chr] /\
  started_ranges (trace (snd run)) = started_ranges (trace w) /\
  (N = 0 -> fst run = Raise ZeroDivisionError) /\
  (N < 0 -> 0 <= L < 2 ^ 53 -> fst run = Ok tt).
Proof.
  intros Hf HL HN run.
  assert (Hrun : run = (match py_truediv L N with Ok _ => Ok tt | Raise e => Raise e end,
                        add_events w [EvFastaHandler ref; EvGetChrSequenceLength chr])).
  { unfold run, do_parallel.
    erewrite bind_ok by (by apply call_ok).
    erewrite bind_ok by (by apply call_ok).
    rewrite add_events_app. cbn [app].
    destruct (py_truediv L N) as [q | err] eqn:Hq.
    - erewrite bind_ok by reflexivity.
      unfold range. replace (Z.to_nat N) with 0%nat by lia. reflexivity.
    - erewrite bind_raise; reflexivity. }
  rewrite Hrun. cbn [fst snd].
  split; [done |]. split.
  - cbn [trace add_events]. rewrite started_ranges_app. cbn. by rewrite app_nil_r.
  - split.
    + intros ->. reflexivity.
    + intros HN' HLb.
      destruct (py_truediv_total L N HLb ltac:(lia)) as [q Hq]. by rewrite Hq.
Qed.

(** C8.  With the test flag set (and the output directory there, the two
    files opening), [main] is one [parse_region] on the fixed range from
    100000 to 200000 of the configured chromosome: it ends when and as that
    run ends.  Nothing that belongs to sharding happens: no chromosome
    length is looked up and no worker is set going; and the reads of exactly
    one region are asked for. *)
Theorem main_test_mode (FLAGS : Flags) (c : ascii) (w : W) :
  FLAGS_test FLAGS = true ->
  last_char (FLAGS_output_dir FLAGS) = Some c ->
  let out := if is_slash c then FLAGS_output_dir FLAGS
             else FLAGS_output_dir FLAGS +:+ "/" in
  out ∈ dirs w ->
  BamHandler ext (FLAGS_bam FLAGS) = Ok tt ->
  FastaHandler ext (FLAGS_ref FLAGS) = Ok tt ->
  let view := {| bam_handler := FLAGS_bam FLAGS; fasta_handler := FLAGS_ref FLAGS;
                 output_dir := out;
                 view_chromosome_name := FLAGS_chromosome_name FLAGS |} in
  let w0 := add_events w [EvBamHandler (FLAGS_bam FLAGS); EvFastaHandler (FLAGS_ref FLAGS);
                          EvBamHandler (FLAGS_bam FLAGS); EvFastaHandler (FLAGS_ref FLAGS)] in
  main ext FLAGS w
  = bind (parse_region ext view 100000 200000 (FLAGS_json FLAGS)) (fun _ => ret tt) w0 /\
  exists evs,
    trace (snd (main ext FLAGS w)) = trace w ++ evs /\
    List.Forall (fun ev => is_sharding ev = false) evs /\
    regions_read evs = [(FLAGS_chromosome_name FLAGS, 100000, 200000)].
Proof.
  intros Ht Hc out Hout Hb Hf view w0.
  assert (Hmain : main ext FLAGS w
                  = bind (parse_region ext view 100000 200000 (FLAGS_json FLAGS))
                      (fun _ => ret tt) w0).
  { rewrite (main_setup FLAGS c w Hc Hout Hb Hf), Ht. fold out.
    erewrite bind_ok by (by apply View_init_ok).
    rewrite add_events_app. reflexivity. }
  split; [exact Hmain |].
  destruct (appends_main_test ext (fun ev => is_sharding ev = false)
              ltac:(done) ltac:(done) ltac:(done) ltac:(done) ltac:(done) ltac:(done)
              ltac:(done) ltac:(done) ltac:(done) ltac:(done) FLAGS Ht w)
    as (evs & Htrace & Hevs).
  exists evs. split; [exact Htrace |]. split; [exact Hevs |].
  assert (Hreads : regions_read (trace (snd (main ext FLAGS w)))
                   = regions_read (trace w)
                     ++ [(FLAGS_chromosome_name FLAGS, 100000, 200000)]).
  { rewrite Hmain.
    pose proof (parse_region_reads_once view 100000 200000 (FLAGS_json FLAGS) w0) as H.
    assert (Hsnd : snd (bind (parse_region ext view 100000 200000 (FLAGS_json FLAGS))
                          (fun _ => ret tt) w0)
                   = snd (parse_region ext view 100000 200000 (FLAGS_json FLAGS) w0)).
    { unfold bind. by destruct (parse_region _ _ _ _ _ _) as [[l | err] w1]. }
    rewrite Hsnd, H. unfold w0. cbn [trace add_events].
    rewrite regions_read_app. cbn. by rewrite app_nil_r. }
  rewrite Htrace, regions_read_app in Hreads.
  by apply app_inv_head in Hreads.
Qed.

(** The script up to the making of the view, on its own. *)
Lemma main_prepare (FLAGS : Flags) (w : W) :
  main ext FLAGS w
  = bind (prepare_output_dir FLAGS)
      (fun output_dir =>
         bind (View_init ext (FLAGS_chromosome_name FLAGS) (FLAGS_bam FLAGS)
                 (FLAGS_ref FLAGS) output_dir)
           (fun _ =>
              if FLAGS_test FLAGS then
                bind (View_init ext (FLAGS_chromosome_name FLAGS) (FLAGS_bam FLAGS)
                        (FLAGS_ref FLAGS) output_dir)
                  (fun view => bind (test ext view (FLAGS_json FLAGS)) (fun _ => ret tt))
              else
                do_parallel ext (FLAGS_chromosome_name FLAGS) (FLAGS_bam FLAGS)
                  (FLAGS_ref FLAGS) (FLAGS_json FLAGS) output_dir
                  (FLAGS_max_threads FLAGS))) w.
Proof.
  unfold main, prepare_output_dir, bind.
  destruct (last_char (FLAGS_output_dir FLAGS)) as [c |]; [| done].
  destruct (is_slash c); unfold ret at 1 4;
    (destruct (os_path_exists _ w) as [[there | e1] w1]; [| done];
     by destruct ((if negb there then os_mkdir _ else _) w1) as [[[] | e2] w2]).
Qed.

Lemma started_processes_app (t1 t2 : list event) :
  started_processes (t1 ++ t2) = started_processes t1 ++ started_processes t2.
Proof. apply flat_map_app. Qed.

(** As long as nothing is joined, every worker started is still a child
    to wait for. *)
Lemma active_children_from (evs : list event) :
  List.Forall (fun ev => is_join ev = false) evs ->
  forall active,
    fold_left (fun active ev =>
                 match ev with
                 | EvProcessStart v s e j => active ++ [(v, s, e, j)]
                 | EvProcessJoin v s e j => remove_first (v, s, e, j) active
                 | _ => active
                 end) evs active
    = active ++ started_processes evs.
Proof.
  induction 1 as [| ev evs Hev Hrest IH]; intros active.
  - simpl. by rewrite app_nil_r.
  - cbn [fold_left]. rewrite IH.
    change (ev :: evs) with ([ev] ++ evs). rewrite started_processes_app.
    destruct ev; try discriminate Hev; cbn; by rewrite ?app_nil_r, <- ?app_assoc.
Qed.

Lemma active_children_no_join (evs : list event) :
  List.Forall (fun ev => is_join ev = false) evs ->
  active_children evs = started_processes evs.
Proof. intros Hevs. unfold active_children. by rewrite active_children_from. Qed.

(** A script that joins no worker: the process exits with the outcome of
    the script, once it has waited for every worker the script started. *)
Lemma interpreter_joins {A : Type} (script : M Candidates A) (w : W) (evs : list event) :
  trace (snd (script w)) = trace w ++ evs ->
  List.Forall (fun ev => is_join ev = false) evs ->
  interpreter script w
  = (fst (script w),
     add_events (snd (script w)) (List.map join_event (started_processes evs))).
Proof.
  intros Ht Hevs. unfold interpreter, exit_function.
  destruct (script w) as [r w'] eqn:Hrun. cbn [fst snd] in *.
  by rewrite Ht, drop_app_length, (active_children_no_join _ Hevs).
Qed.


End Modes.

(** ** The statements above at concrete inputs *)

Lemma do_parallel_shard_ranges_witness :
  let ext := sample_modules 10007 [] in
  let s := ceil_div 10007 5 in
  let shards := List.map (fun i => (i * s, (i + 1) * s + 1000)) (range 5) in
  (exists w', do_parallel ext "3" "reads.bam" "ref.fa" false "out/" 5 sample_world
              = (Ok tt, w') /\
              started_ranges (trace w') = started_ranges (trace sample_world) ++ shards) /\
  Z.of_nat (length shards) = 5 /\
  (forall x, 0 <= x <= 10007 -> exists r, r ∈ shards /\ in_range r x) /\
  (forall (i : nat) r r', shards !! i = Some r -> shards !! S i = Some r' ->
     snd r - fst r' = 1000 /\
     forall x, in_range r x /\ in_range r' x <-> fst r' <= x < fst r' + 1000).
Proof.
  apply (do_parallel_shard_ranges (sample_modules 10007 []) "3" "reads.bam" "ref.fa"
           false "out/" 5 10007 sample_world);
    [reflexivity | reflexivity | reflexivity | split; [lia | reflexivity]
    | split; [lia | reflexivity]].
Defined.

(** Past [2^53] the quotient is rounded before the ceiling is taken: for a
    length of [2^53 + 1] and a single shard, the range set going ends at
    [2^53 + 1000], not at [ceil(L/N) + 1000 = 2^53 + 1001]. *)
Lemma do_parallel_shard_ranges_counterexample :
  let L := 2 ^ 53 + 1 in
  let N := 1 in
  let started :=
    started_ranges
      (trace (snd (do_parallel (sample_modules L []) "3" "reads.bam" "ref.fa" false
                     "out/" N sample_world))) in
  get_chr_sequence_length (sample_modules L []) "ref.fa" "3" = Ok L /\
  started = [(0, 2 ^ 53 + 1000)] /\
  started <> List.map (fun i => (i * ceil_div L N, (i + 1) * ceil_div L N + 1000)) (range N).
Proof. vm_compute. split; [reflexivity | split; [reflexivity | discriminate]]. Qed.

Lemma sample_windows_enumerated :
  Forall2 (candidates_of_window (sample_modules 1000 sample_windows) sample_view)
    sample_windows ["3:5-9"; "3:20-20"].
Proof.
  repeat constructor; exists "ACGT", tt; repeat split; reflexivity.
Defined.

Lemma parse_region_fetch_spans_witness :
  let ext := sample_modules 1000 sample_windows in
  let w' := snd (parse_region ext sample_view 0 100 true sample_world) in
  sequence_fetches (trace w')
  = sequence_fetches (trace sample_world) ++ [("3", 5, 10); ("3", 20, 21)] /\
  pileup_fetches (trace w')
  = pileup_fetches (trace sample_world) ++ [("3", 5, 10); ("3", 20, 21)].
Proof.
  exact (parse_region_fetch_spans (sample_modules 1000 sample_windows) sample_view
           0 100 true sample_world tt sample_windows ["3:5-9"; "3:20-20"]
           eq_refl eq_refl sample_windows_enumerated).
Defined.

Lemma parse_region_window_order_witness :
  let ext := sample_modules 1000 sample_windows in
  let out := parse_region ext sample_view 0 100 true sample_world in
  exists obj r,
    heap (snd out) !! obj = Some r /\
    (forall l, fst out = Ok l -> l = obj) /\
    (true = false -> fst out = Ok obj) /\
    length (all_candidates r) = length sample_windows /\
    forall (i : nat) window,
      sample_windows !! i = Some window ->
      exists candidate_list,
        all_candidates r !! i = Some candidate_list /\
        candidates_of_window ext sample_view window candidate_list.
Proof.
  exact (parse_region_window_order (sample_modules 1000 sample_windows) sample_view
           0 100 true sample_world tt sample_windows ["3:5-9"; "3:20-20"]
           eq_refl eq_refl sample_windows_enumerated).
Defined.

Lemma parse_region_no_windows_witness :
  exists obj w',
    parse_region (sample_modules 1000 []) sample_view 0 100 true sample_world
    = (Ok obj, w') /\
    heap w' !! obj = Some {| chromosome_name := "3"; start_position := 0;
                             end_position := 100; all_candidates := [] |} /\
    sequence_fetches (trace w') = [] /\
    pileup_fetches (trace w') = [].
Proof.
  destruct (parse_region_no_windows (sample_modules 1000 []) sample_view 0 100 true
              sample_world tt eq_refl eq_refl (fun _ => eq_refl))
    as (w' & Hrun & Hobj & _ & Hs & Hp).
  exists (fresh (dom (heap sample_world))), w'.
  split; [exact Hrun |]. split; [exact Hobj |]. split; [exact Hs | exact Hp].
Defined.

Lemma sample_write_runs :
  write_json (sample_modules 1000 []) sample_view 0 100 0%nat sample_world_with_region
  = (Ok tt, snd (write_json (sample_modules 1000 []) sample_view 0 100 0%nat
                   sample_world_with_region)) /\
  write_json (sample_modules 1000 []) other_view 0 100 0%nat sample_world_with_region
  = (Ok tt, snd (write_json (sample_modules 1000 []) other_view 0 100 0%nat
                   sample_world_with_region)).
Proof. split; vm_compute; reflexivity. Defined.

Lemma write_json_artifact_witness :
  let ext := sample_modules 1000 [] in
  let w := sample_world_with_region in
  let w1' := snd (write_json ext sample_view 0 100 0%nat w) in
  let w2' := snd (write_json ext other_view 0 100 0%nat w) in
  exists name d1 d2,
    name = json_file_name "3" 0 100 /\
    written_files (trace w1') = written_files (trace w) ++ [("out/" +:+ "json_output/") +:+ name] /\
    written_files (trace w2') = written_files (trace w) ++ [("" +:+ "json_output/") +:+ name] /\
    files w1' !! (("out/" +:+ "json_output/") +:+ name) = Some (Doc d1) /\
    files w2' !! (("" +:+ "json_output/") +:+ name) = Some (Doc d2) /\
    keys_sorted d1 /\ keys_sorted d2 /\
    (exists m1 m2,
       d1 = JDict m1 /\ d2 = JDict m2 /\
       keys m1 = [KStr "all_candidates"; KStr "chromosome_name"; KStr "end_position";
                  KStr "start_position"] /\
       keys m2 = keys m1) /\
    (exists r1 js1,
       heap w !! 0%nat = Some r1 /\
       encode_candidates ext (all_candidates r1) = Ok js1 /\
       same_content (region_document r1 js1) d1) /\
    (exists r2 js2,
       heap w !! 0%nat = Some r2 /\
       encode_candidates ext (all_candidates r2) = Ok js2 /\
       same_content (region_document r2 js2) d2).
Proof.
  exact (write_json_artifact (sample_modules 1000 []) sample_view other_view 0 100
           0%nat 0%nat sample_world_with_region _ sample_world_with_region _
           eq_refl (proj1 sample_write_runs) (proj2 sample_write_runs)).
Defined.

Lemma sample_fresh_dir : fresh_dir sample_world_with_region "out/".
Proof.
  intros p rest [Hp | [x Hx]] E.
  - change (p ∈ ({[ "out/" ]} : gset string)) in Hp.
    apply elem_of_singleton in Hp. subst p.
    destruct rest; [reflexivity | discriminate E].
  - discriminate Hx.
Defined.

Lemma write_json_fresh_directory_witness :
  let sub := "out/" +:+ "json_output/" in
  let path := "out/" +:+ "json_output/Candidates_" +:+ "3" +:+ "_" +:+ str 0 +:+ "_"
                +:+ str 100 +:+ ".json" in
  let w := sample_world_with_region in
  write_json (sample_modules 1000 []) sample_view 0 100 0%nat w
  = (Ok tt,
     {| heap := heap w;
        dirs := {[ sub ]} ∪ dirs w;
        files := <[ path := Doc (sort_keys
                                   (region_document sample_region
                                      [sample_candidate_json "3:5-9";
                                       sample_candidate_json "3:20-20"])) ]> (files w);
        trace := trace w ++ [EvMkdir sub; EvOpenW path; EvWrite path] |}) /\
  (sub ∉ dirs w).
Proof.
  apply (proj2 (write_json_fresh_directory (sample_modules 1000 []) sample_view 0 100
                  0%nat) sample_world_with_region sample_region
           [sample_candidate_json "3:5-9"; sample_candidate_json "3:20-20"]);
    [reflexivity | reflexivity | reflexivity | vm_compute; reflexivity
    | exact sample_fresh_dir | reflexivity | reflexivity | reflexivity].
Defined.

(** A chromosome name with a slash in it sends the artifact into a
    directory nobody has made: in an output directory that is there and has
    nothing beneath it, the first write raises FileNotFoundError and leaves no
    file.  And of two writers that both find [json_output/] absent, the one
    that comes second to [os.mkdir] is stopped by FileExistsError. *)
Lemma write_json_fresh_directory_counterexample :
  let ext := sample_modules 1000 [] in
  let w := sample_world_with_region in
  ("out/" ∈ dirs w /\ fresh_dir w "out/") /\
  (fst (write_json ext slash_view 0 100 0%nat w) = Raise FileNotFoundError /\
   files (snd (write_json ext slash_view 0 100 0%nat w)) = files w) /\
  (os_path_exists "out/json_output/" w = (Ok false, w) /\
   fst (write_json ext sample_view 100 200 0%nat w) = Ok tt /\
   fst (os_mkdir "out/json_output/" (snd (write_json ext sample_view 100 200 0%nat w)))
   = Raise FileExistsError).
Proof.
  split; [split; [vm_compute; reflexivity | exact sample_fresh_dir] |].
  split; [split; vm_compute; reflexivity |].
  split; [vm_compute; reflexivity |]. split; vm_compute; reflexivity.
Qed.

Lemma do_parallel_no_shards_witness :
  fst (do_parallel (sample_modules (2 ^ 53 + 1) []) "3" "reads.bam" "ref.fa" false "out/"
         0 sample_world) = Raise ZeroDivisionError /\
  do_parallel (sample_modules 1000 []) "3" "reads.bam" "ref.fa" false "out/" (-1)
    sample_world
  = (Ok tt, add_events sample_world [EvFastaHandler "ref.fa"; EvGetChrSequenceLength "3"]).
Proof.
  split.
  - destruct (do_parallel_no_shards (sample_modules (2 ^ 53 + 1) []) "3" "reads.bam"
                "ref.fa" false "out/" 0 (2 ^ 53 + 1) sample_world eq_refl eq_refl
                ltac:(lia)) as (_ & _ & H0 & _).
    exact (H0 eq_refl).
  - destruct (do_parallel_no_shards (sample_modules 1000 []) "3" "reads.bam"
                "ref.fa" false "out/" (-1) 1000 sample_world eq_refl eq_refl
                ltac:(lia)) as (Hw & _ & _ & Hneg).
    specialize (Hneg ltac:(lia) ltac:(split; [lia | reflexivity])).
    destruct (do_parallel _ _ _ _ _ _ _ _) as [r w']. cbn [fst snd] in *.
    by rewrite Hw, Hneg.
Defined.

(** A shard count of [-1] is no error: [do_parallel] returns normally. *)
Lemma do_parallel_no_shards_counterexample :
  let run := do_parallel (sample_modules 1000 []) "3" "reads.bam" "ref.fa" false "out/"
               (-1) sample_world in
  fst run = Ok tt /\ (forall e, fst run <> Raise e).
Proof. vm_compute. split; [reflexivity | discriminate]. Qed.

Lemma main_test_mode_witness :
  let ext := sample_modules 1000 sample_windows in
  let FLAGS := sample_flags true in
  let view := {| bam_handler := "reads.bam"; fasta_handler := "ref.fa";
                 output_dir := "out" +:+ "/"; view_chromosome_name := "3" |} in
  let w0 := add_events sample_world
              [EvBamHandler "reads.bam"; EvFastaHandler "ref.fa";
               EvBamHandler "reads.bam"; EvFastaHandler "ref.fa"] in
  main ext FLAGS sample_world
  = bind (parse_region ext view 100000 200000 false) (fun _ => ret tt) w0 /\
  exists evs,
    trace (snd (main ext FLAGS sample_world)) = trace sample_world ++ evs /\
    List.Forall (fun ev => is_sharding ev = false) evs /\
    regions_read evs = [("3", 100000, 200000)].
Proof.
  apply (main_test_mode (sample_modules 1000 sample_windows) (sample_flags true) "t"
           sample_world);
    [reflexivity | reflexivity | vm_compute; reflexivity | reflexivity | reflexivity].
Defined.



(** ** Artifact names *)

Lemma no_underscore_uint (d : Decimal.uint) :
  ~ In "_"%char (list_ascii_of_string (NilEmpty.string_of_uint d)).
Proof.
  induction d; simpl; [tauto | ..]; intros [E | H]; try discriminate E; tauto.
Qed.

(** The decimal form of an int has no underscore in it. *)
Lemma no_underscore_str (n : Z) : ~ In "_"%char (list_ascii_of_string (str n)).
Proof.
  unfold str, NilZero.string_of_int, NilZero.string_of_uint.
  destruct (Z.to_int n) as [d | d].
  - destruct d; try apply no_underscore_uint. simpl. intros [E | []]. discriminate E.
  - intros [E | H]; [discriminate E |]. revert H.
    destruct d; try apply no_underscore_uint. simpl. intros [E | []]. discriminate E.
Qed.

Lemma to_int_proper (n : Z) :
  Z.to_int n <> Decimal.Pos Decimal.Nil /\ Z.to_int n <> Decimal.Neg Decimal.Nil.
Proof.
  destruct n as [| p | p]; simpl; split; try discriminate;
    intros [= E]; by apply DecimalPos.Unsigned.to_uint_nonnil in E.
Qed.

(** [int(str(n))] is [n]: the decimal form reads back as the int. *)
Lemma str_parses_back (n : Z) :
  option_map Z.of_int (NilZero.int_of_string (str n)) = Some n.
Proof.
  unfold str. destruct (to_int_proper n) as [H1 H2].
  rewrite NilZero.isi by done. simpl. f_equal. apply DecimalZ.of_to.
Qed.

Lemma str_inj (a b : Z) : str a = str b -> a = b.
Proof.
  intros E. pose proof (str_parses_back a) as Ha. rewrite E, str_parses_back in Ha.
  by injection Ha.
Qed.

(** A list is cut at its first [c] in one way only. *)
Lemma cut_unique {A : Type} (c : A) (l1 l2 r1 r2 : list A) :
  ~ In c l1 -> ~ In c l2 -> l1 ++ c :: r1 = l2 ++ c :: r2 -> l1 = l2 /\ r1 = r2.
Proof.
  revert l2. induction l1 as [| x l1 IH]; intros [| y l2] H1 H2 E; simpl in *.
  - by injection E.
  - injection E as -> _. tauto.
  - injection E as -> _. tauto.
  - injection E as -> E. destruct (IH l2) as [-> ->]; tauto.
Qed.

Lemma list_ascii_of_string_inj (a b : string) :
  list_ascii_of_string a = list_ascii_of_string b -> a = b.
Proof.
  intros E. rewrite <- (string_of_list_ascii_of_string a), E.
  apply string_of_list_ascii_of_string.
Qed.

(** The name tells the chromosome name and both bounds: read from the end,
    the last two underscores delimit the bounds, whatever underscores the
    chromosome name has. *)
Lemma json_file_name_inj (c c' : string) (s s' e e' : Z) :
  json_file_name c s e = json_file_name c' s' e' -> c = c' /\ s = s' /\ e = e'.
Proof.
  unfold json_file_name. intros E.
  apply append_inj_l, append_inj_l in E.
  apply (f_equal list_ascii_of_string) in E.
  rewrite !list_ascii_of_string_app in E.
  apply (f_equal (@rev ascii)) in E.
  rewrite !rev_app_distr in E.
  change (rev (list_ascii_of_string "_")) with ["_"%char] in E.
  rewrite <- !app_assoc in E.
  apply app_inv_head in E.
  cbn [app] in E.
  apply cut_unique in E as [Ee E];
    [| rewrite <- in_rev; apply no_underscore_str ..].
  apply cut_unique in E as [Es Ec];
    [| rewrite <- in_rev; apply no_underscore_str ..].
  apply (f_equal (@rev ascii)) in Ee, Es, Ec. rewrite !rev_involutive in Ee, Es, Ec.
  apply list_ascii_of_string_inj in Ee, Es, Ec.
  apply str_inj in Ee, Es. done.
Qed.

(** Within one output directory, two artifacts have the same path only when
    they are for the same chromosome name and the same range. *)
Theorem artifact_path_inj (out c c' : string) (r r' : Z * Z) :
  artifact_path out c r = artifact_path out c' r' -> c = c' /\ r = r'.
Proof.
  unfold artifact_path. intros E.
  apply append_inj_l, json_file_name_inj in E as (Hc & Hs & He).
  split; [done |]. destruct r, r'. simpl in *. congruence.
Qed.

(** ** More on the shard partitioner *)

Section MoreShards.

Context {Reads Pileup Candidates : Type}.
Variable ext : Modules Reads Pileup Candidates.

Local Abbreviation W := (World Candidates).

Lemma range_lookup_inv (n : Z) (i : nat) (a : Z) :
  range n !! i = Some a -> a = Z.of_nat i.
Proof.
  unfold range. rewrite list_lookup_fmap. intros H.
  destruct (seq 0 (Z.to_nat n) !! i) as [k |] eqn:Hk; [| done].
  apply lookup_seq in Hk as [-> _]. simpl in H. by injection H as <-.
Qed.

Lemma range_NoDup (n : Z) : NoDup (range n).
Proof.
  unfold range. apply (NoDup_fmap_2 Z.of_nat). apply NoDup_seq.
Qed.

(** The run of [do_parallel] with the segment length spelled out. *)
Lemma do_parallel_ranges (chr bam ref : string) (json_out : bool) (out : string)
    (N L : Z) (w : W) :
  BamHandler ext bam = Ok tt -> FastaHandler ext ref = Ok tt ->
  get_chr_sequence_length ext ref chr = Ok L ->
  0 <= L < 2 ^ 53 -> 1 <= N < 2 ^ 1075 ->
  exists w',
    do_parallel ext chr bam ref json_out out N w = (Ok tt, w') /\
    started_ranges (trace w')
    = started_ranges (trace w)
      ++ List.map (fun i => (i * ceil_div L N, (i + 1) * ceil_div L N + 1000)) (range N).
Proof.
  intros Hb Hf HL HLb HN.
  destruct (truediv_ceil_exact L N HLb ltac:(lia)) as (q & Hq & Hceil).
  eexists; split; [eapply do_parallel_run; eassumption |].
  cbn [trace add_events]. rewrite !started_ranges_app.
  rewrite started_ranges_shards, Hceil. reflexivity.
Qed.

(** On a chromosome that is not empty, no two workers are sent to the same
    artifact path: the ranges differ, and with them the file names. *)
Theorem do_parallel_distinct_artifacts (chr bam ref : string) (json_out : bool)
    (out : string) (N L : Z) (w : W) :
  BamHandler ext bam = Ok tt -> FastaHandler ext ref = Ok tt ->
  get_chr_sequence_length ext ref chr = Ok L ->
  1 <= L < 2 ^ 53 -> 1 <= N < 2 ^ 1075 ->
  exists w' ranges,
    do_parallel ext chr bam ref json_out out N w = (Ok tt, w') /\
    started_ranges (trace w') = started_ranges (trace w) ++ ranges /\
    Z.of_nat (length ranges) = N /\
    NoDup (List.map (artifact_path out chr) ranges).
Proof.
  intros Hb Hf HL HLb HN.
  destruct (do_parallel_ranges chr bam ref json_out out N L w Hb Hf HL ltac:(lia) HN)
    as (w' & Hrun & Hranges).
  pose proof (ceil_div_bounds L N ltac:(lia)) as Hs.
  set (s := ceil_div L N) in *.
  assert (Hs1 : 1 <= s) by nia.
  eexists _, _. split; [exact Hrun |]. split; [exact Hranges |].
  split; [rewrite length_map; apply range_length; lia |].
  rewrite List.map_map. apply NoDup_fmap_2_strong; [| apply range_NoDup].
  intros i j _ _ E. unfold artifact_path in E. cbn [fst snd] in E.
  apply append_inj_l, json_file_name_inj in E as (_ & E & _). nia.
Qed.

(** When a segment is at least as long as the overlap, a coordinate lies in
    at most two ranges, and then in neighbouring ones. *)
Theorem do_parallel_at_most_two_shards (chr bam ref : string) (json_out : bool)
    (out : string) (N L : Z) (w : W) :
  BamHandler ext bam = Ok tt -> FastaHandler ext ref = Ok tt ->
  get_chr_sequence_length ext ref chr = Ok L ->
  999 * N < L < 2 ^ 53 -> 1 <= N < 2 ^ 1075 ->
  exists w' ranges,
    do_parallel ext chr bam ref json_out out N w = (Ok tt, w') /\
    started_ranges (trace w') = started_ranges (trace w) ++ ranges /\
    forall (i j : nat) r r' x,
      ranges !! i = Some r -> ranges !! j = Some r' ->
      in_range r x -> in_range r' x -> (i <= S j /\ j <= S i)%nat.
Proof.
  intros Hb Hf HL HLb HN.
  destruct (do_parallel_ranges chr bam ref json_out out N L w Hb Hf HL ltac:(lia) HN)
    as (w' & Hrun & Hranges).
  pose proof (ceil_div_bounds L N ltac:(lia)) as Hs.
  set (s := ceil_div L N) in *.
  assert (Hs1 : 1000 <= s) by nia.
  eexists _, _. split; [exact Hrun |]. split; [exact Hranges |].
  intros i j r r' x Hi Hj Hx Hx'.
  rewrite list_lookup_fmap in Hi, Hj.
  destruct (range N !! i) as [a |] eqn:Ha; [| done].
  destruct (range N !! j) as [b |] eqn:Hb'; [| done].
  apply range_lookup_inv in Ha, Hb'. subst a b.
  simpl in Hi, Hj. injection Hi as <-. injection Hj as <-.
  unfold in_range in Hx, Hx'. cbn [fst snd] in Hx, Hx'. nia.
Qed.

(** The ranges are not cut at the end of the chromosome: the last one ends
    at least 1000, and less than [N + 1000], past it. *)
Theorem do_parallel_last_range_overshoots (chr bam ref : string) (json_out : bool)
    (out : string) (N L : Z) (w : W) :
  BamHandler ext bam = Ok tt -> FastaHandler ext ref = Ok tt ->
  get_chr_sequence_length ext ref chr = Ok L ->
  0 <= L < 2 ^ 53 -> 1 <= N < 2 ^ 1075 ->
  exists w' ranges r,
    do_parallel ext chr bam ref json_out out N w = (Ok tt, w') /\
    started_ranges (trace w') = started_ranges (trace w) ++ ranges /\
    last ranges = Some r /\
    L + 1000 <= snd r < L + N + 1000.
Proof.
  intros Hb Hf HL HLb HN.
  destruct (do_parallel_ranges chr bam ref json_out out N L w Hb Hf HL HLb HN)
    as (w' & Hrun & Hranges).
  pose proof (ceil_div_bounds L N ltac:(lia)) as Hs.
  set (s := ceil_div L N) in *.
  eexists _, _, ((N - 1) * s, (N - 1 + 1) * s + 1000).
  split; [exact Hrun |]. split; [exact Hranges |]. split.
  - rewrite last_lookup, length_map, list_lookup_fmap.
    pose proof (range_length N ltac:(lia)) as Hlen.
    replace (Nat.pred (length (range N))) with (Z.to_nat (N - 1)) by lia.
    by rewrite range_lookup by lia.
  - cbn [snd]. nia.
Qed.

(** For a chromosome of length zero every worker is given the same range,
    from 0 to 1000, and so the same artifact path. *)
Theorem do_parallel_empty_chromosome (chr bam ref : string) (json_out : bool)
    (out : string) (N : Z) (w : W) :
  BamHandler ext bam = Ok tt -> FastaHandler ext ref = Ok tt ->
  get_chr_sequence_length ext ref chr = Ok 0 ->
  1 <= N ->
  exists w',
    do_parallel ext chr bam ref json_out out N w = (Ok tt, w') /\
    started_ranges (trace w')
    = started_ranges (trace w) ++ replicate (Z.to_nat N) (0, 1000).
Proof.
  intros Hb Hf HL HN.
  assert (Hq : py_truediv 0 N = Ok (Float 0 0)).
  { unfold py_truediv. destruct (N =? 0) eqn:E; [apply Z.eqb_eq in E; lia | done]. }
  eexists; split; [eapply do_parallel_run; eassumption |].
  cbn [trace add_events]. rewrite !started_ranges_app, started_ranges_shards.
  cbn [started_ranges flat_map app]. f_equal.
  change (math_ceil (Float 0 0)) with 0.
  unfold range. generalize (Z.to_nat N) as n. intros n. generalize 0%nat as k.
  induction n as [| n IH]; intros k; [done |].
  cbn [seq List.map replicate]. rewrite IH. f_equal. f_equal; lia.
Qed.

(** When the alignment file does not open, the first turn of the loop
    raises: [do_parallel] ends with that error and no worker is set
    going. *)
Theorem do_parallel_unreadable_bam (chr bam ref : string) (json_out : bool)
    (out : string) (N L : Z) (e : exn) (w : W) :
  FastaHandler ext ref = Ok tt ->
  get_chr_sequence_length ext ref chr = Ok L ->
  0 <= L < 2 ^ 53 -> 1 <= N ->
  BamHandler ext bam = Raise e ->
  do_parallel ext chr bam ref json_out out N w
  = (Raise e,
     add_events w [EvFastaHandler ref; EvGetChrSequenceLength chr; EvBamHandler bam]).
Proof.
  intros Hf HL HLb HN Hb. unfold do_parallel.
  erewrite bind_ok by (by apply call_ok).
  erewrite bind_ok by (by apply call_ok).
  destruct (py_truediv_total L N HLb ltac:(lia)) as [q Hq].
  erewrite bind_ok by (unfold lift; by rewrite Hq).
  unfold range. destruct (Z.to_nat N) as [| n] eqn:En; [lia |].
  cbn [seq List.map for_each_shard].
  erewrite bind_raise.
  2:{ unfold View_init. erewrite bind_raise; [reflexivity |]. by apply call_raise. }
  by rewrite !add_events_app.
Qed.

Lemma started_views_app (t1 t2 : list event) :
  started_views (t1 ++ t2) = started_views t1 ++ started_views t2.
Proof. apply flat_map_app. Qed.

(** Opening a view adds the two opening events at most, and the view it
    returns is made of the arguments. *)
Lemma View_init_effect (chr bam ref out : string) (w : W) :
  exists evs,
    snd (View_init ext chr bam ref out w) = add_events w evs /\
    started_views evs = [] /\
    forall v, fst (View_init ext chr bam ref out w) = Ok v ->
              v = {| bam_handler := bam; fasta_handler := ref; output_dir := out;
                     view_chromosome_name := chr |}.
Proof.
  unfold View_init, bind, call, emit, lift, ret.
  destruct (BamHandler ext bam) as [[] | e1]; cbn.
  - destruct (FastaHandler ext ref) as [[] | e2]; cbn.
    + eexists. rewrite add_events_app. split; [reflexivity |].
      split; [done |]. by intros v [= <-].
    + eexists. rewrite add_events_app. split; [reflexivity |]. by split.
  - eexists. split; [reflexivity |]. by split.
Qed.

Lemma for_each_shard_effect (chr bam ref : string) (json_out : bool) (out : string)
    (s : Z) (indices : list Z) (w : W) :
  exists evs,
    snd (for_each_shard ext chr bam ref json_out out s indices w) = add_events w evs /\
    List.Forall (fun vj => vj = ({| bam_handler := bam; fasta_handler := ref;
                                    output_dir := out; view_chromosome_name := chr |},
                                 json_out))
      (started_views evs).
Proof.
  revert w. induction indices as [| i rest IH]; intros w.
  - exists []. by rewrite add_events_nil.
  - cbn [for_each_shard]. unfold bind at 1.
    destruct (View_init_effect chr bam ref out w) as (evs & Hw & Hsv & Hv).
    destruct (View_init ext chr bam ref out w) as [[v | e] w1]; cbn [fst snd] in *.
    + rewrite (Hv v eq_refl). subst w1.
      unfold bind, Process_start, emit. rewrite add_events_app.
      destruct (IH (add_events w
                      (evs ++ [EvProcessStart
                                 {| bam_handler := bam; fasta_handler := ref;
                                    output_dir := out; view_chromosome_name := chr |}
                                 (i * s) ((i + 1) * s + 1000) json_out])))
        as (evs' & -> & Hevs').
      eexists. rewrite add_events_app. split; [reflexivity |].
      rewrite !started_views_app, Hsv. cbn. by constructor.
    + exists evs. split; [done |]. rewrite Hsv. constructor.
Qed.

Lemma do_parallel_effect (chr bam ref : string) (json_out : bool)
    (out : string) (N : Z) (w : W) :
  exists evs,
    snd (do_parallel ext chr bam ref json_out out N w) = add_events w evs /\
    List.Forall (fun vj => vj = ({| bam_handler := bam; fasta_handler := ref;
                                    output_dir := out; view_chromosome_name := chr |},
                                 json_out))
      (started_views evs).
Proof.
  unfold do_parallel.
  destruct (FastaHandler ext ref) as [[] | e1] eqn:Hf.
  2:{ erewrite bind_raise by (by apply call_raise).
      eexists. split; [reflexivity |]. constructor. }
  erewrite bind_ok by (by apply call_ok).
  destruct (get_chr_sequence_length ext ref chr) as [L | e2] eqn:HL.
  2:{ erewrite bind_raise by (by apply call_raise).
      eexists. rewrite add_events_app. split; [reflexivity |]. constructor. }
  erewrite bind_ok by (by apply call_ok).
  rewrite add_events_app.
  destruct (py_truediv L N) as [q | e3] eqn:Hq.
  2:{ erewrite bind_raise by reflexivity.
      eexists. split; [reflexivity |]. constructor. }
  erewrite bind_ok by reflexivity.
  destruct (for_each_shard_effect chr bam ref json_out out (math_ceil q) (range N)
              (add_events w ([EvFastaHandler ref] ++ [EvGetChrSequenceLength chr])))
    as (evs & -> & Hevs).
  eexists. rewrite add_events_app. split; [reflexivity |].
  by rewrite started_views_app.
Qed.

(** [do_parallel] itself leaves the objects in memory and the disk as they
    are, whatever [json_out] is and however it ends: all it does is to open
    files, look up the length and set workers going; and every worker is
    given a view of the chromosome, files and output directory that
    [do_parallel] was called with, and its [json_out]. *)
Theorem do_parallel_only_dispatches (chr bam ref : string) (json_out : bool)
    (out : string) (N : Z) (w : W) :
  let w' := snd (do_parallel ext chr bam ref json_out out N w) in
  heap w' = heap w /\ dirs w' = dirs w /\ files w' = files w /\
  exists evs,
    trace w' = trace w ++ evs /\
    List.Forall (fun vj => vj = ({| bam_handler := bam; fasta_handler := ref;
                                    output_dir := out; view_chromosome_name := chr |},
                                 json_out))
      (started_views evs).
Proof.
  destruct (do_parallel_effect chr bam ref json_out out N w) as (evs & Hw & Hevs).
  cbn zeta. rewrite Hw. repeat split; try done. by exists evs.
Qed.

End MoreShards.

(** ** More on serialization *)

(** [sort_keys=True] only reorders: the object written has the members of
    the object given, each once, with their values sorted in turn. *)
Theorem sort_keys_same_members (members : list (key * json)) :
  exists sorted,
    sort_keys (JDict members) = JDict sorted /\
    sorted ≡ₚ List.map (fun kv => (fst kv, sort_keys (snd kv))) members /\
    keys sorted ≡ₚ keys members.
Proof.
  eexists. split; [reflexivity |].
  split.
  - rewrite sort_members_perm.
    by rewrite (List.map_ext _ (fun kv => (fst kv, sort_keys (snd kv))))
      by (by intros [k v]).
  - apply sort_members_keys.
Qed.

Section MoreSerialization.

Context {Reads Pileup Candidates : Type}.
Variable ext : Modules Reads Pileup Candidates.

Local Abbreviation W := (World Candidates).

(** The encoder goes through exactly when every candidate list has a JSON
    form, and then gives the forms in order. *)
Lemma encode_candidates_ok (l : list Candidates) (js : list json) :
  encode_candidates ext l = Ok js <->
  Forall2 (fun c j => candidate_json ext c = Some j) l js.
Proof.
  revert js. induction l as [| c l IH]; intros js; simpl.
  - split; [intros [= <-]; constructor | by inversion 1].
  - destruct (candidate_json ext c) as [j |] eqn:Hc.
    + destruct (encode_candidates ext l) as [js' | e] eqn:He.
      * split.
        -- intros [= <-]. constructor; [done | by apply IH].
        -- inversion 1 as [| ? j0 ? js0 Hj Hrest]; subst.
           apply IH in Hrest. congruence.
      * split; [done |]. inversion 1 as [| ? j0 ? js0 Hj Hrest]; subst.
        apply IH in Hrest. congruence.
    + split; [done |]. inversion 1; subst. congruence.
Qed.

Lemma encode_candidates_rejects (l : list Candidates) (c : Candidates) :
  c ∈ l -> candidate_json ext c = None ->
  encode_candidates ext l = Raise TypeError.
Proof.
  intros Hin Hc. induction l as [| c' l IH]; [by apply elem_of_nil in Hin |].
  simpl. apply elem_of_cons in Hin as [<- | Hin].
  - by rewrite Hc.
  - destruct (candidate_json ext c'); [| done]. by rewrite (IH Hin).
Qed.

(** When a candidate list has no JSON form, [write_json] raises TypeError;
    by then the artifact file has been created, and it is left empty.  (The
    output directory is there, its path spelled canonically; no regular file
    is called [json_output]; no directory has the name of the artifact; the
    chromosome name has no slash in it.) *)
Theorem write_json_unencodable (self : View) (start end_ : Z) (obj : loc) (w : W)
    (r : AllCandidatesInRegion Candidates) (c : Candidates) :
  let sub := output_dir self +:+ "json_output/" in
  let path := sub +:+ json_file_name (view_chromosome_name self) start end_ in
  canonical_dir (output_dir self) = true ->
  last_char (output_dir self) = Some "/"%char ->
  has_slash (view_chromosome_name self) = false ->
  output_dir self ∈ dirs w ->
  files w !! sub = None ->
  files w !! (output_dir self +:+ "json_output") = None ->
  path ∉ dirs w ->
  path +:+ "/" ∉ dirs w ->
  heap w !! obj = Some r ->
  c ∈ all_candidates r -> candidate_json ext c = None ->
  exists w',
    write_json ext self start end_ obj w = (Raise TypeError, w') /\
    files w' = <[ path := Empty ]> (files w) /\
    written_files (trace w') = written_files (trace w).
Proof.
  intros sub path _ Hd Hc Hout Hfile Hname Hpath Hpathd Hobj Hin Hnone.
  pose proof (encode_candidates_rejects _ _ Hin Hnone) as Henc.
  rewrite (write_json_opens ext self start end_ obj w)
    by (done || by apply dir_present_in).
  fold sub. fold path.
  unfold bind, reprJSON, lift. cbn [heap dirs files trace].
  rewrite Hobj, json_dumps_region, Henc.
  eexists. split; [reflexivity |]. split; [reflexivity |].
  cbn [trace]. unfold written_files.
  rewrite !flat_map_app. destruct (bool_decide _); cbn; by rewrite !app_nil_r.
Qed.

(** When the output directory is not there, making the subdirectory
    fails and [write_json] ends with the error of [os.mkdir], nothing
    created: FileNotFoundError, or NotADirectoryError when a regular file
    stands on the way to the subdirectory.  (The path of the output
    directory is spelled canonically and nothing is on disk under the name
    of the subdirectory.) *)
Theorem write_json_missing_output_dir (self : View) (start end_ : Z) (obj : loc) (w : W) :
  let sub := output_dir self +:+ "json_output/" in
  canonical_dir (output_dir self) = true ->
  last_char (output_dir self) = Some "/"%char ->
  dir_present w (output_dir self) = false ->
  ~ on_disk w sub ->
  files w !! (output_dir self +:+ "json_output") = None ->
  write_json ext self start end_ obj w
  = (Raise (if through_file w sub then NotADirectoryError else FileNotFoundError),
     add_events w [EvMkdir sub]).
Proof.
  intros sub _ Hd Hout Hsub Hname.
  assert (Hparent_sub : parent_dir sub = output_dir self).
  { unfold sub. change "json_output/" with ("json_output" +:+ "/").
    by apply parent_dir_subdir. }
  assert (Hstrip_sub : strip_slashes sub = output_dir self +:+ "json_output").
  { unfold sub. change "json_output/" with ("json_output" +:+ "/").
    by apply strip_slashes_subdir. }
  assert (Hex : bool_decide (sub ∈ dirs w) || bool_decide (is_Some (files w !! sub))
                = false).
  { apply orb_false_intro; apply bool_decide_eq_false_2; intros H; apply Hsub;
      [by left | by right]. }
  unfold write_json. fold sub.
  rewrite (bind_ok _ _ false w w) by (unfold os_path_exists; by rewrite Hex).
  cbn [negb]. erewrite bind_raise; [reflexivity |].
  unfold os_mkdir, is_file. rewrite Hex, Hstrip_sub, Hname, Hparent_sub, Hout.
  rewrite (bool_decide_eq_false_2 (is_Some None)) by (by intros [? ?]).
  cbn [orb]. by destruct (through_file w sub).
Qed.

(** Writing the same region again goes through, makes no directory, and
    leaves the disk as the first writing left it. *)
Theorem write_json_again (self : View) (start end_ : Z) (obj : loc) (w w' : W) :
  write_json ext self start end_ obj w = (Ok tt, w') ->
  let path := output_dir self +:+ "json_output/"
                +:+ json_file_name (view_chromosome_name self) start end_ in
  write_json ext self start end_ obj w'
  = (Ok tt, {| heap := heap w'; dirs := dirs w'; files := files w';
               trace := trace w' ++ [EvOpenW path; EvWrite path] |}).
Proof.
  intros Hrun path.
  destruct (write_json_inv ext self start end_ obj w w' Hrun)
    as (r & js & made & Hobj & Henc & Hsort & Hmade & Hpath & Hpathd & Hparent & Hw').
  assert (Hp : path = (output_dir self +:+ "json_output/")
                      +:+ json_file_name (view_chromosome_name self) start end_)
    by (unfold path; by rewrite append_assoc).
  rewrite <- Hp in Hpath, Hpathd, Hparent, Hw'.
  assert (Hheap : heap w' = heap w) by (by rewrite Hw').
  assert (Hfiles : files w' = <[ path := Doc (sort_keys (region_document r js)) ]> (files w))
    by (by rewrite Hw').
  assert (Hsub : bool_decide (output_dir self +:+ "json_output/" ∈ dirs w')
                 || bool_decide (is_Some (files w' !! (output_dir self +:+ "json_output/")))
                 = true).
  { rewrite Hw'. cbn [dirs files]. destruct made.
    - rewrite bool_decide_eq_true_2; [done |]. by apply elem_of_union_l, elem_of_singleton.
    - symmetry in Hmade. apply negb_false_iff, orb_true_iff in Hmade as [E | E].
      + by rewrite E.
      + apply bool_decide_eq_true in E. destruct E as [x Hx].
        rewrite (bool_decide_eq_true_2 (is_Some _)); [apply orb_true_r |].
        destruct (decide (path = output_dir self +:+ "json_output/")) as [E | NE].
        * rewrite <- E, lookup_insert_eq. by eexists.
        * rewrite lookup_insert_ne by done. by eexists. }
  clear Hw'.
  unfold write_json. fold path.
  rewrite (bind_ok _ _ true w' w') by (unfold os_path_exists; by rewrite Hsub).
  cbn [negb]. rewrite (bind_ok _ _ tt w' w') by reflexivity.
  erewrite bind_ok by (by apply open_w_ok).
  unfold bind, reprJSON, lift, file_write.
  cbn [heap dirs files trace]. rewrite Hheap, Hobj, json_dumps_region, Henc, Hsort.
  cbn [heap dirs files trace]. rewrite insert_insert_eq, Hfiles, insert_insert_eq.
  by rewrite <- app_assoc.
Qed.

End MoreSerialization.

(** ** More on the region orchestrator *)

Section MoreRegion.

Context {Reads Pileup Candidates : Type}.
Variable ext : Modules Reads Pileup Candidates.

Local Abbreviation W := (World Candidates).
Local Abbreviation Py := (M Candidates).

Lemma keeps_disk_ret {A : Type} (a : A) : keeps_disk (ret a : Py A).
Proof. by intros w. Qed.

Lemma keeps_disk_bind {A B : Type} (m : Py A) (k : A -> Py B) :
  keeps_disk m -> (forall a, keeps_disk (k a)) -> keeps_disk (bind m k).
Proof.
  intros Hm Hk w. unfold bind. destruct (Hm w) as [Hd Hf].
  destruct (m w) as [[a | e] w1]; cbn [snd] in *; [| done].
  destruct (Hk a w1) as [Hd' Hf']. by rewrite Hd', Hf'.
Qed.

Lemma keeps_disk_call {A : Type} (ev : event) (r : Result A) :
  keeps_disk (call ev r : Py A).
Proof. by intros w. Qed.

Lemma keeps_disk_add_candidate_to_list (self : loc) (c : Candidates) :
  keeps_disk (add_candidate_to_list self c).
Proof. intros w. unfold add_candidate_to_list. by destruct (heap w !! self). Qed.

Lemma keeps_disk_for_each_window (self : View) (obj : loc)
    (ws : list (string * Z * Z)) :
  keeps_disk (for_each_window ext self obj ws).
Proof.
  induction ws as [| [[c a] b] rest IH]; cbn [for_each_window].
  - apply keeps_disk_ret.
  - repeat first [exact IH | apply keeps_disk_add_candidate_to_list
                 | apply keeps_disk_call
                 | apply keeps_disk_bind; [| intros ?]].
Qed.

(** Without [json_out] a region run leaves the disk alone: no directory
    is made and no file is created or changed, however the run ends. *)
Theorem parse_region_without_json (self : View) (s e : Z) (w : W) :
  dirs (snd (parse_region ext self s e false w)) = dirs w /\
  files (snd (parse_region ext self s e false w)) = files w.
Proof.
  revert w. change (keeps_disk (parse_region ext self s e false)).
  unfold parse_region.
  apply keeps_disk_bind; [apply keeps_disk_call | intros reads].
  apply keeps_disk_bind; [apply keeps_disk_call | intros ws].
  apply keeps_disk_bind; [by intros w | intros obj].
  apply keeps_disk_bind; [apply keeps_disk_for_each_window | intros _].
  apply keeps_disk_bind; [apply keeps_disk_ret | intros _; apply keeps_disk_ret].
Qed.

(** The loop over the windows when one of them cannot be enumerated: the
    windows before it are enumerated and appended, the error is raised, and
    the windows after it are not looked at. *)
Lemma for_each_window_fails (self : View) (obj : loc)
    (pre : list (string * Z * Z)) (cands : list Candidates)
    (window : string * Z * Z) (post : list (string * Z * Z)) (e : exn) :
  Forall2 (candidates_of_window ext self) pre cands ->
  window_raises ext self window e ->
  forall (w : W) (r : AllCandidatesInRegion Candidates),
  heap w !! obj = Some r ->
  exists evs,
    for_each_window ext self obj (pre ++ window :: post) w
    = (Raise e,
       {| heap := <[ obj := {| chromosome_name := chromosome_name r;
                               start_position := start_position r;
                               end_position := end_position r;
                               all_candidates := all_candidates r ++ cands |} ]> (heap w);
          dirs := dirs w;
          files := files w;
          trace := trace w ++ evs |}) /\
    sequence_fetches evs
    = List.map (fun '(c, a, b) => (c, a, b + 1)) (pre ++ [window]).
Proof.
  intros Hpre Hfail.
  induction Hpre as [| [[c a] b] cand pre cands Hwin Hrest IH]; intros w r Hobj.
  - destruct window as [[c a] b]. cbn [app for_each_window].
    unfold window_raises in Hfail.
    rewrite app_nil_r, (insert_id (heap w) obj) by (by destruct r).
    destruct (get_sequence ext _ c a (b + 1)) as [sq | e1] eqn:Hsq.
    + erewrite bind_ok by (by apply call_ok).
      destruct (get_pileupcolumns_aligned_to_a_region ext _ c a (b + 1))
        as [pile | e2] eqn:Hpile.
      * erewrite bind_ok by (by apply call_ok).
        erewrite bind_raise by (by apply call_raise).
        eexists. rewrite !add_events_app. split; [reflexivity | reflexivity].
      * subst e2. erewrite bind_raise by (by apply call_raise).
        eexists. rewrite !add_events_app. split; [reflexivity | reflexivity].
    + subst e1. erewrite bind_raise by (by apply call_raise).
      eexists. split; [reflexivity | reflexivity].
  - destruct Hwin as (sq & pile & Hsq & Hpile & Hcand).
    cbn [app for_each_window].
    erewrite bind_ok by (by apply call_ok).
    erewrite bind_ok by (by apply call_ok).
    erewrite bind_ok by (by apply call_ok).
    erewrite bind_ok.
    2:{ unfold add_candidate_to_list. cbn [heap add_events]. rewrite Hobj. reflexivity. }
    edestruct IH as (evs & -> & Hevs); [cbn [heap]; apply lookup_insert_eq |].
    cbn [heap dirs files trace add_events append_candidate chromosome_name
           start_position end_position all_candidates].
    rewrite insert_insert_eq.
    exists ([EvGetSequence c a (b + 1); EvGetPileupColumns c a (b + 1);
             EvAlleleFinder c a b] ++ evs).
    split.
    + f_equal. f_equal; [by rewrite <- app_assoc | by rewrite <- !app_assoc].
    + rewrite sequence_fetches_app, Hevs. reflexivity.
Qed.

(** When a window cannot be enumerated, [parse_region] ends with the
    error of that window and, even with [json_out] set, writes nothing: the
    disk is as before.  The object it was assembling holds the candidate
    lists of the windows before the failing one, and the windows after it
    were never fetched. *)
Theorem parse_region_failing_window (self : View) (s e : Z) (json_out : bool) (w : W)
    (reads : Reads) (pre : list (string * Z * Z)) (cands : list Candidates)
    (window : string * Z * Z) (post : list (string * Z * Z)) (err : exn) :
  get_reads ext (bam_handler self) (view_chromosome_name self) s e = Ok reads ->
  candidate_windows ext reads (fasta_handler self) (view_chromosome_name self) s e
  = Ok (pre ++ window :: post) ->
  Forall2 (candidates_of_window ext self) pre cands ->
  window_raises ext self window err ->
  exists w',
    parse_region ext self s e json_out w = (Raise err, w') /\
    dirs w' = dirs w /\ files w' = files w /\
    heap w' !! fresh (dom (heap w))
    = Some {| chromosome_name := view_chromosome_name self; start_position := s;
              end_position := e; all_candidates := cands |} /\
    sequence_fetches (trace w')
    = sequence_fetches (trace w)
      ++ List.map (fun '(c, a, b) => (c, a, b + 1)) (pre ++ [window]).
Proof.
  intros Hreads Hws Hpre Hfail. unfold parse_region.
  erewrite bind_ok by (by apply call_ok).
  erewrite bind_ok by (by apply call_ok).
  erewrite bind_ok by reflexivity.
  cbn [heap dirs files trace add_events].
  set (obj := fresh (dom (heap w))).
  match goal with
  | |- context [bind (for_each_window ext self obj _) _ ?w0] => set (w1 := w0)
  end.
  assert (Hobj : heap w1 !! obj
                 = Some {| chromosome_name := view_chromosome_name self;
                           start_position := s; end_position := e;
                           all_candidates := [] |})
    by (unfold w1; cbn [heap]; apply lookup_insert_eq).
  destruct (for_each_window_fails self obj pre cands window post err Hpre Hfail
              w1 _ Hobj) as (evs & Hloop & Hevs).
  erewrite bind_raise by exact Hloop.
  eexists. split; [reflexivity |].
  unfold w1.
  cbn [heap dirs files trace chromosome_name start_position end_position
         all_candidates app].
  split; [done |]. split; [done |]. split; [apply lookup_insert_eq |].
  rewrite !sequence_fetches_app, Hevs. cbn [sequence_fetches flat_map app].
  by rewrite !app_nil_r.
Qed.

(** With [json_out] set and everything going through, the artifact of a
    region is the document of that very region: its chromosome name and
    bounds, and one entry per window, in window order, each the JSON form
    of that window's candidate list with its members put in order.  (The
    output directory is there, its path spelled canonically; no regular file
    is called [json_output]; no directory has the name of the artifact; the
    chromosome name has no slash in it; the dictionaries of the JSON forms
    can be put in order.) *)
Theorem parse_region_writes_document (self : View) (s e : Z) (w : W)
    (reads : Reads) (ws : list (string * Z * Z)) (cands : list Candidates)
    (js : list json) :
  get_reads ext (bam_handler self) (view_chromosome_name self) s e = Ok reads ->
  candidate_windows ext reads (fasta_handler self) (view_chromosome_name self) s e
  = Ok ws ->
  Forall2 (candidates_of_window ext self) ws cands ->
  Forall2 (fun c j => candidate_json ext c = Some j) cands js ->
  forallb sortable js = true ->
  canonical_dir (output_dir self) = true ->
  last_char (output_dir self) = Some "/"%char ->
  has_slash (view_chromosome_name self) = false ->
  output_dir self ∈ dirs w ->
  files w !! (output_dir self +:+ "json_output/") = None ->
  files w !! (output_dir self +:+ "json_output") = None ->
  artifact_path (output_dir self) (view_chromosome_name self) (s, e) ∉ dirs w ->
  artifact_path (output_dir self) (view_chromosome_name self) (s, e) +:+ "/" ∉ dirs w ->
  exists obj w',
    parse_region ext self s e true w = (Ok obj, w') /\
    files w'
    = <[ artifact_path (output_dir self) (view_chromosome_name self) (s, e) :=
         Doc (JDict [(KStr "all_candidates", JList (List.map sort_keys js));
                     (KStr "chromosome_name", JStr (view_chromosome_name self));
                     (KStr "end_position", JInt e);
                     (KStr "start_position", JInt s)]) ]> (files w) /\
    length js = length ws.
Proof.
  intros Hreads Hws Hcands Hjs Hsort _ Hd Hc Hout Hfile Hname Hpath Hpathd.
  rewrite (parse_region_assembles ext self s e true w reads ws cands) by done.
  set (obj := fresh (dom (heap w))).
  set (w1 := {| heap := _; dirs := dirs w; files := files w; trace := _ |}).
  erewrite bind_ok.
  2:{ eapply (write_json_run ext self s e obj w1); try eassumption.
      - by apply dir_present_in.
      - unfold w1; cbn [heap]. apply lookup_insert_eq.
      - cbn [all_candidates]. by apply encode_candidates_ok. }
  eexists _, _. split; [reflexivity |]. split; [reflexivity |].
  rewrite (Forall2_length _ _ _ Hcands). symmetry. by eapply Forall2_length.
Qed.

End MoreRegion.

(** ** More on [main] *)

Section MoreMain.

Context {Reads Pileup Candidates : Type}.
Variable ext : Modules Reads Pileup Candidates.

Local Abbreviation W := (World Candidates).

Lemma started_views_others (evs : list event) :
  List.Forall (fun ev => started_views [ev] = []) evs -> started_views evs = [].
Proof.
  induction 1 as [| ev evs Hev _ IH]; [done |].
  change (ev :: evs) with ([ev] ++ evs). by rewrite started_views_app, Hev, IH.
Qed.

Lemma bind_run {A B : Type} (m : M Candidates A) (k : A -> M Candidates B) (w : W) :
  bind m k w
  = match m w with
    | (Ok a, w') => k a w'
    | (Raise e, w') => (Raise e, w')
    end.
Proof. reflexivity. Qed.

(** The output directory as [main] passes it on ends in a slash. *)
Lemma normalized_output_dir (d : string) (c : ascii) :
  last_char d = Some c ->
  last_char (if is_slash c then d else d +:+ "/") = Some "/"%char.
Proof.
  intros Hc. destruct (is_slash c) eqn:E.
  - unfold is_slash in E. apply Ascii.eqb_eq in E. by subst c.
  - apply (last_char_app d "" "/").
Qed.

(** [main] from the point where the output directory is on disk. *)
Lemma main_rest_views (FLAGS : Flags) (out : string) (w1 : W) :
  on_disk w1 out ->
  let rest :=
    bind (View_init ext (FLAGS_chromosome_name FLAGS) (FLAGS_bam FLAGS)
            (FLAGS_ref FLAGS) out)
      (fun _ =>
         if FLAGS_test FLAGS then
           bind (View_init ext (FLAGS_chromosome_name FLAGS) (FLAGS_bam FLAGS)
                   (FLAGS_ref FLAGS) out)
             (fun view => bind (test ext view (FLAGS_json FLAGS)) (fun _ => ret tt))
         else
           do_parallel ext (FLAGS_chromosome_name FLAGS) (FLAGS_bam FLAGS)
             (FLAGS_ref FLAGS) (FLAGS_json FLAGS) out (FLAGS_max_threads FLAGS)) in
  exists evs,
    trace (snd (rest w1)) = trace w1 ++ evs /\
    List.Forall (fun vj => vj = ({| bam_handler := FLAGS_bam FLAGS;
                                    fasta_handler := FLAGS_ref FLAGS;
                                    output_dir := out;
                                    view_chromosome_name := FLAGS_chromosome_name FLAGS |},
                                 FLAGS_json FLAGS) /\
                           on_disk (snd (rest w1)) out)
      (started_views evs).
Proof.
  intros Hdisk rest.
  assert (Hcases :
            (exists evs, trace (snd (rest w1)) = trace w1 ++ evs /\
                         started_views evs = []) \/
            (exists evs, snd (rest w1) = add_events w1 evs /\
                         List.Forall
                           (fun vj => vj = ({| bam_handler := FLAGS_bam FLAGS;
                                               fasta_handler := FLAGS_ref FLAGS;
                                               output_dir := out;
                                               view_chromosome_name :=
                                                 FLAGS_chromosome_name FLAGS |},
                                            FLAGS_json FLAGS))
                           (started_views evs))).
  { subst rest. rewrite (bind_run (View_init ext _ _ _ out) _ w1).
    destruct (View_init_effect ext (FLAGS_chromosome_name FLAGS) (FLAGS_bam FLAGS)
                (FLAGS_ref FLAGS) out w1) as (evs1 & Hw & Hsv & _).
    destruct (View_init ext _ _ _ out w1) as [[v | e] w2]; cbn [snd] in Hw; subst w2.
    2:{ left. exists evs1. by split. }
    destruct (FLAGS_test FLAGS).
    - left.
      assert (Happ : appends (fun ev => started_views [ev] = [])
                       (bind (View_init ext (FLAGS_chromosome_name FLAGS)
                                (FLAGS_bam FLAGS) (FLAGS_ref FLAGS) out)
                          (fun view => bind (test ext view (FLAGS_json FLAGS))
                                         (fun _ => ret tt)) : M Candidates unit)).
      { apply appends_bind; [by apply appends_View_init | intros view].
        apply appends_bind; [by apply appends_parse_region | intros _; apply appends_ret]. }
      destruct (Happ (add_events w1 evs1)) as (evs2 & -> & Hevs2).
      exists (evs1 ++ evs2). cbn [trace add_events]. split; [by rewrite app_assoc |].
      by rewrite started_views_app, Hsv, (started_views_others _ Hevs2).
    - right.
      destruct (do_parallel_effect ext (FLAGS_chromosome_name FLAGS) (FLAGS_bam FLAGS)
                  (FLAGS_ref FLAGS) (FLAGS_json FLAGS) out (FLAGS_max_threads FLAGS)
                  (add_events w1 evs1)) as (evs2 & -> & Hevs2).
      exists (evs1 ++ evs2). rewrite add_events_app. split; [done |].
      by rewrite started_views_app, Hsv. }
  destruct Hcases as [(evs & Ht & Hsv) | (evs & Hw & Hevs)].
  - exists evs. split; [exact Ht |]. rewrite Hsv. constructor.
  - exists evs. rewrite Hw. split; [done |].
    eapply Forall_impl; [exact Hevs |]. intros vj ->. split; [done | exact Hdisk].
Qed.

(** Whatever the flags and however [main] ends, every worker it sets going
    has a view made of the flags (chromosome name, alignment file,
    reference) with an output directory that ends in a slash and is on
    disk, and is given the [--json] flag. *)
Theorem main_worker_views (FLAGS : Flags) (w : W) :
  exists evs,
    trace (snd (main ext FLAGS w)) = trace w ++ evs /\
    List.Forall (fun vj =>
                   last_char (output_dir (fst vj)) = Some "/"%char /\
                   on_disk (snd (main ext FLAGS w)) (output_dir (fst vj)) /\
                   bam_handler (fst vj) = FLAGS_bam FLAGS /\
                   fasta_handler (fst vj) = FLAGS_ref FLAGS /\
                   view_chromosome_name (fst vj) = FLAGS_chromosome_name FLAGS /\
                   snd vj = FLAGS_json FLAGS)
      (started_views evs).
Proof.
  destruct (last_char (FLAGS_output_dir FLAGS)) as [c |] eqn:Hc.
  2:{ assert (Hmain : main ext FLAGS w = (Raise IndexError, w))
        by (unfold main; by rewrite Hc).
      rewrite Hmain. exists []. split; [by rewrite app_nil_r | constructor]. }
  pose proof (normalized_output_dir _ _ Hc) as Hslash.
  set (out := if is_slash c then FLAGS_output_dir FLAGS
              else FLAGS_output_dir FLAGS +:+ "/") in *.
  set (rest :=
         bind (View_init ext (FLAGS_chromosome_name FLAGS) (FLAGS_bam FLAGS)
                 (FLAGS_ref FLAGS) out)
           (fun _ =>
              if FLAGS_test FLAGS then
                bind (View_init ext (FLAGS_chromosome_name FLAGS) (FLAGS_bam FLAGS)
                        (FLAGS_ref FLAGS) out)
                  (fun view => bind (test ext view (FLAGS_json FLAGS)) (fun _ => ret tt))
              else
                do_parallel ext (FLAGS_chromosome_name FLAGS) (FLAGS_bam FLAGS)
                  (FLAGS_ref FLAGS) (FLAGS_json FLAGS) out (FLAGS_max_threads FLAGS))).
  assert (Hmain : main ext FLAGS w
                  = bind (if negb (bool_decide (out ∈ dirs w)
                                   || bool_decide (is_Some (files w !! out)))
                          then os_mkdir out else ret tt)
                      (fun _ => rest) w).
  { unfold main. rewrite Hc.
    rewrite (bind_ok _ _ out w w) by (unfold out; by destruct (is_slash c)).
    by rewrite (bind_ok _ _ _ w w) by reflexivity. }
  rewrite Hmain. clear Hmain.
  destruct (bool_decide (out ∈ dirs w) || bool_decide (is_Some (files w !! out)))
    eqn:Hthere; cbn [negb].
  - rewrite (bind_ok _ _ tt w w) by reflexivity.
    assert (Hdisk : on_disk w out).
    { apply orb_true_iff in Hthere as [H | H]; apply bool_decide_eq_true in H;
        [by left | by right]. }
    destruct (main_rest_views FLAGS out w Hdisk) as (evs & Ht & Hevs).
    exists evs. split; [exact Ht |].
    eapply Forall_impl; [exact Hevs |]. intros vj [-> Hd]. by repeat split.
  - destruct (os_mkdir out w) as [[[] | err] w1] eqn:Hmk.
    + pose proof (os_mkdir_inv _ _ _ Hmk) as (_ & _ & _ & _ & Hw1).
      rewrite (bind_ok _ _ tt w w1 Hmk).
      assert (Hdisk : on_disk w1 out)
        by (left; rewrite Hw1; cbn [dirs]; by apply elem_of_union_l, elem_of_singleton).
      destruct (main_rest_views FLAGS out w1 Hdisk) as (evs & Ht & Hevs).
      exists ([EvMkdir out] ++ evs). split.
      * fold rest in Ht. rewrite Ht, Hw1. cbn [trace]. by rewrite app_assoc.
      * rewrite started_views_app. cbn [started_views flat_map app].
        eapply Forall_impl; [exact Hevs |]. intros vj [-> Hd]. by repeat split.
    + rewrite (bind_raise _ _ err w w1 Hmk). cbn [snd].
      destruct (appends_os_mkdir (fun ev => started_views [ev] = []) ltac:(done) out w)
        as (evs & Ht & Hevs).
      rewrite Hmk in Ht. cbn [snd] in Ht.
      exists evs. split; [exact Ht |].
      rewrite (started_views_others _ Hevs). constructor.
Qed.

Lemma last_char_not_slash (d : string) (c : ascii) :
  last_char d = Some c -> has_slash d = false -> is_slash c = false.
Proof.
  intros Hc Hd. destruct (last_char_snoc d c Hc) as [l Hl].
  unfold has_slash in Hd. rewrite Hl, existsb_app in Hd.
  apply orb_false_elim in Hd as [_ Hd]. simpl in Hd. by destruct (is_slash c).
Qed.

(** A single path component lies in the working directory. *)
Lemma parent_dir_top (name : string) :
  has_slash name = false -> name <> "" -> parent_dir (name +:+ "/") = "".
Proof.
  intros Hn Hne. unfold parent_dir.
  rewrite list_ascii_of_string_app, rev_app_distr.
  change (rev (list_ascii_of_string "/")) with ["/"%char].
  cbn [app drop_while]. change (is_slash "/") with true. cbv iota.
  rewrite <- (app_nil_r (rev (list_ascii_of_string name))).
  rewrite drop_slashes_none
    by (by apply rev_name_nonempty || by apply no_slash_forallb).
  by rewrite drop_while_app_all by by apply no_slash_forallb.
Qed.


(** [main] makes the output directory with [os.mkdir], one level only:
    when the directory is not there and neither is its parent, [main] ends
    with the error of [os.mkdir] before any file is opened:
    FileNotFoundError, or NotADirectoryError when a regular file stands on the
    way to the directory.  (The path of the output directory is spelled
    canonically and nothing is on disk under its name.) *)
Theorem main_output_dir_not_creatable (FLAGS : Flags) (c : ascii) (w : W) :
  last_char (FLAGS_output_dir FLAGS) = Some c ->
  let out := if is_slash c then FLAGS_output_dir FLAGS
             else FLAGS_output_dir FLAGS +:+ "/" in
  canonical_dir out = true ->
  ~ on_disk w out ->
  is_file w (strip_slashes out) = false ->
  dir_present w (parent_dir out) = false ->
  main ext FLAGS w
  = (Raise (if through_file w out then NotADirectoryError else FileNotFoundError),
     add_events w [EvMkdir out]).
Proof.
  intros Hc out _ Hnot Hnofile Hparent.
  assert (Hthere : bool_decide (out ∈ dirs w) || bool_decide (is_Some (files w !! out))
                   = false).
  { apply orb_false_intro; apply bool_decide_eq_false_2; intros H; apply Hnot;
      [by left | by right]. }
  unfold main. rewrite Hc.
  rewrite (bind_ok _ _ out w w) by (unfold out; by destruct (is_slash c)).
  rewrite (bind_ok _ _ false w w) by (unfold os_path_exists; by rewrite Hthere).
  cbn [negb]. erewrite bind_raise; [reflexivity |].
  unfold os_mkdir. rewrite Hthere, Hnofile, Hparent. cbn [orb].
  by destruct (through_file w out).
Qed.

End MoreMain.

(** ** The further statements at concrete inputs *)

Lemma artifact_path_inj_witness : "3" = "3" /\ (0, 100) = (0, 100).
Proof. exact (artifact_path_inj "out/" "3" "3" (0, 100) (0, 100) eq_refl). Defined.

Lemma do_parallel_distinct_artifacts_witness :
  exists w' ranges,
    do_parallel (sample_modules 10007 []) "3" "reads.bam" "ref.fa" true "out/" 5
      sample_world = (Ok tt, w') /\
    started_ranges (trace w') = started_ranges (trace sample_world) ++ ranges /\
    Z.of_nat (length ranges) = 5 /\
    NoDup (List.map (artifact_path "out/" "3") ranges).
Proof.
  apply (do_parallel_distinct_artifacts (sample_modules 10007 []) "3" "reads.bam"
           "ref.fa" true "out/" 5 10007 sample_world);
    [reflexivity | reflexivity | reflexivity | split; [lia | reflexivity]
    | split; [lia | reflexivity]].
Defined.

Lemma do_parallel_at_most_two_shards_witness :
  exists w' ranges,
    do_parallel (sample_modules 10007 []) "3" "reads.bam" "ref.fa" true "out/" 5
      sample_world = (Ok tt, w') /\
    started_ranges (trace w') = started_ranges (trace sample_world) ++ ranges /\
    forall (i j : nat) r r' x,
      ranges !! i = Some r -> ranges !! j = Some r' ->
      in_range r x -> in_range r' x -> (i <= S j /\ j <= S i)%nat.
Proof.
  apply (do_parallel_at_most_two_shards (sample_modules 10007 []) "3" "reads.bam"
           "ref.fa" true "out/" 5 10007 sample_world);
    [reflexivity | reflexivity | reflexivity | split; [lia | reflexivity]
    | split; [lia | reflexivity]].
Defined.

Lemma do_parallel_empty_chromosome_witness :
  exists w',
    do_parallel (sample_modules 0 []) "3" "reads.bam" "ref.fa" true "out/" 3 sample_world
    = (Ok tt, w') /\
    started_ranges (trace w')
    = started_ranges (trace sample_world) ++ replicate (Z.to_nat 3) (0, 1000).
Proof.
  apply (do_parallel_empty_chromosome (sample_modules 0 []) "3" "reads.bam" "ref.fa"
           true "out/" 3 sample_world); [reflexivity | reflexivity | reflexivity | lia].
Defined.

Lemma do_parallel_unreadable_bam_witness :
  do_parallel failing_modules "3" "reads.bam" "ref.fa" true "out/" 5 sample_world
  = (Raise (ModuleError "cannot open"),
     add_events sample_world
       [EvFastaHandler "ref.fa"; EvGetChrSequenceLength "3"; EvBamHandler "reads.bam"]).
Proof.
  apply (do_parallel_unreadable_bam failing_modules "3" "reads.bam" "ref.fa" true
           "out/" 5 1000 (ModuleError "cannot open") sample_world);
    [reflexivity | reflexivity | split; [lia | reflexivity] | lia | reflexivity].
Defined.

Lemma write_json_unencodable_witness :
  let sub := "out/" +:+ "json_output/" in
  let path := sub +:+ json_file_name "3" 0 100 in
  exists w',
    write_json failing_modules sample_view 0 100 0%nat sample_world_with_region
    = (Raise TypeError, w') /\
    files w' = <[ path := Empty ]> (files sample_world_with_region) /\
    written_files (trace w') = written_files (trace sample_world_with_region).
Proof.
  apply (write_json_unencodable failing_modules sample_view 0 100 0%nat
           sample_world_with_region sample_region "3:5-9");
    [reflexivity | reflexivity | reflexivity | vm_compute; reflexivity
    | reflexivity | reflexivity
    | intros H; vm_compute in H; discriminate H
    | intros H; vm_compute in H; discriminate H | reflexivity
    | apply list_elem_of_here | reflexivity].
Defined.

Lemma bare_world_misses_subdir : ~ on_disk bare_world ("out/" +:+ "json_output/").
Proof. intros [H | [x H]]; vm_compute in H; discriminate H. Defined.

Lemma blocked_world_misses_subdir : ~ on_disk blocked_world ("out/" +:+ "json_output/").
Proof. intros [H | [x H]]; vm_compute in H; discriminate H. Defined.

Lemma write_json_missing_output_dir_witness :
  write_json (sample_modules 1000 []) sample_view 0 100 0%nat bare_world
  = (Raise FileNotFoundError,
     add_events bare_world [EvMkdir ("out/" +:+ "json_output/")]) /\
  write_json (sample_modules 1000 []) sample_view 0 100 0%nat blocked_world
  = (Raise NotADirectoryError,
     add_events blocked_world [EvMkdir ("out/" +:+ "json_output/")]).
Proof.
  split.
  - exact (write_json_missing_output_dir (sample_modules 1000 []) sample_view 0 100 0%nat
             bare_world eq_refl eq_refl eq_refl bare_world_misses_subdir eq_refl).
  - exact (write_json_missing_output_dir (sample_modules 1000 []) sample_view 0 100 0%nat
             blocked_world eq_refl eq_refl eq_refl blocked_world_misses_subdir eq_refl).
Defined.

Lemma sample_first_write :
  write_json (sample_modules 1000 []) sample_view 0 100 0%nat sample_world_with_region
  = (Ok tt, snd (write_json (sample_modules 1000 []) sample_view 0 100 0%nat
                   sample_world_with_region)).
Proof. vm_compute. reflexivity. Defined.

Lemma write_json_again_witness :
  let ext := sample_modules 1000 [] in
  let w' := snd (write_json ext sample_view 0 100 0%nat sample_world_with_region) in
  let path := "out/" +:+ "json_output/" +:+ json_file_name "3" 0 100 in
  write_json ext sample_view 0 100 0%nat w'
  = (Ok tt, {| heap := heap w'; dirs := dirs w'; files := files w';
               trace := trace w' ++ [EvOpenW path; EvWrite path] |}).
Proof.
  exact (write_json_again (sample_modules 1000 []) sample_view 0 100 0%nat
           sample_world_with_region _ sample_first_write).
Defined.

Lemma first_window_enumerated :
  Forall2 (candidates_of_window failing_modules sample_view) [("3", 5, 9)] ["3:5-9"].
Proof. repeat constructor; exists "ACGT", tt; repeat split; reflexivity. Defined.

Lemma parse_region_failing_window_witness :
  exists w',
    parse_region failing_modules sample_view 0 100 true sample_world
    = (Raise (ModuleError "no pileup"), w') /\
    dirs w' = dirs sample_world /\ files w' = files sample_world /\
    heap w' !! fresh (dom (heap sample_world))
    = Some {| chromosome_name := "3"; start_position := 0; end_position := 100;
              all_candidates := ["3:5-9"] |} /\
    sequence_fetches (trace w')
    = sequence_fetches (trace sample_world)
      ++ List.map (fun '(c, a, b) => (c, a, b + 1)) ([("3", 5, 9)] ++ [("3", 20, 20)]).
Proof.
  exact (parse_region_failing_window failing_modules sample_view 0 100 true sample_world
           tt [("3", 5, 9)] ["3:5-9"] ("3", 20, 20) [] (ModuleError "no pileup")
           eq_refl eq_refl first_window_enumerated eq_refl).
Defined.

Lemma sample_candidates_encoded :
  Forall2 (fun c j => candidate_json (sample_modules 1000 sample_windows) c = Some j)
    ["3:5-9"; "3:20-20"]
    [sample_candidate_json "3:5-9"; sample_candidate_json "3:20-20"].
Proof. repeat constructor. Defined.

(** In the sample the positions that key a candidate's dictionary come out
    by value: 9, 10, 100. *)
Lemma sample_candidate_sorted :
  sort_keys (sample_candidate_json "3:5-9")
  = JDict [(KStr "depth", JDict [(KInt 9, JInt 7); (KInt 10, JInt 4); (KInt 100, JInt 2)]);
           (KStr "window", JStr "3:5-9")].
Proof. reflexivity. Qed.

Lemma parse_region_writes_document_witness :
  let js := [sample_candidate_json "3:5-9"; sample_candidate_json "3:20-20"] in
  exists obj w',
    parse_region (sample_modules 1000 sample_windows) sample_view 0 100 true sample_world
    = (Ok obj, w') /\
    files w'
    = <[ artifact_path "out/" "3" (0, 100) :=
         Doc (JDict [(KStr "all_candidates", JList (List.map sort_keys js));
                     (KStr "chromosome_name", JStr "3");
                     (KStr "end_position", JInt 100);
                     (KStr "start_position", JInt 0)]) ]> (files sample_world) /\
    length js = length sample_windows.
Proof.
  apply (parse_region_writes_document (sample_modules 1000 sample_windows) sample_view
           0 100 sample_world tt sample_windows ["3:5-9"; "3:20-20"]);
    [reflexivity | reflexivity | exact sample_windows_enumerated
    | exact sample_candidates_encoded | reflexivity | reflexivity | reflexivity
    | reflexivity | vm_compute; reflexivity | reflexivity | reflexivity
    | intros H; vm_compute in H; discriminate H
    | intros H; vm_compute in H; discriminate H].
Defined.

Lemma sample_world_misses_results : ~ on_disk sample_world ("results" +:+ "/").
Proof. intros [H | [x H]]; vm_compute in H; discriminate H. Defined.

Lemma sample_world_fresh_results : fresh_dir sample_world ("results" +:+ "/").
Proof.
  intros p rest [Hp | [x Hx]] E.
  - change (p ∈ ({[ "out/" ]} : gset string)) in Hp.
    apply elem_of_singleton in Hp. subst p. discriminate E.
  - discriminate Hx.
Defined.

Lemma json_windows_enumerated :
  Forall2 (candidates_of_window (sample_modules 1000 sample_windows)
             {| bam_handler := "reads.bam"; fasta_handler := "ref.fa";
                output_dir := "results" +:+ "/"; view_chromosome_name := "3" |})
    sample_windows ["3:5-9"; "3:20-20"].
Proof. repeat constructor; exists "ACGT", tt; repeat split; reflexivity. Defined.


Lemma bare_world_misses_nested : ~ on_disk bare_world "runs/today/".
Proof. intros [H | [x H]]; vm_compute in H; discriminate H. Defined.

Lemma blocked_world_misses_nested : ~ on_disk blocked_world "runs/today/".
Proof. intros [H | [x H]]; vm_compute in H; discriminate H. Defined.

Lemma main_output_dir_not_creatable_witness :
  main (sample_modules 1000 []) nested_flags bare_world
  = (Raise FileNotFoundError, add_events bare_world [EvMkdir "runs/today/"]) /\
  main (sample_modules 1000 []) nested_flags blocked_world
  = (Raise NotADirectoryError, add_events blocked_world [EvMkdir "runs/today/"]).
Proof.
  split.
  - exact (main_output_dir_not_creatable (sample_modules 1000 []) nested_flags "/"
             bare_world eq_refl eq_refl bare_world_misses_nested eq_refl eq_refl).
  - exact (main_output_dir_not_creatable (sample_modules 1000 []) nested_flags "/"
             blocked_world eq_refl eq_refl blocked_world_misses_nested eq_refl eq_refl).
Defined.

Lemma do_parallel_last_range_overshoots_witness :
  exists w' ranges r,
    do_parallel (sample_modules 10007 []) "3" "reads.bam" "ref.fa" true "out/" 5
      sample_world = (Ok tt, w') /\
    started_ranges (trace w') = started_ranges (trace sample_world) ++ ranges /\
    last ranges = Some r /\
    10007 + 1000 <= snd r < 10007 + 5 + 1000.
Proof.
  apply (do_parallel_last_range_overshoots (sample_modules 10007 []) "3" "reads.bam"
           "ref.fa" true "out/" 5 10007 sample_world);
    [reflexivity | reflexivity | reflexivity | split; [lia | reflexivity]
    | split; [lia | reflexivity]].
Defined.
